(** * Nuclei SDK (N100): system timer driver and exception dispatch

    A shallow embedding of
    - [NMSIS/Core/Include/core_feature_timer.h] (the SysTimer driver), and
    - [SoC/evalsoc/Common/Source/system_evalsoc.c] (exception table, IRQ
      registration),
    together with the properties of these functions.

    Integers of the C code are [Z] with the wrap-around written out;
    memory-mapped registers live in a small device model that is driven
    through a state monad which records every bus access. *)

From Stdlib Require Import ZArith Lia List Bool.
From stdpp Require Import base option list gmap.
Import ListNotations.
Local Open Scope Z_scope.

(** ** Machine integers *)

Abbreviation B32 := 4294967296 (only parsing).
Abbreviation B64 := 18446744073709551616 (only parsing).

(** Conversion to [uint32_t] / [uint64_t]. *)
Definition uint32 (x : Z) : Z := x mod B32.
Definition uint64 (x : Z) : Z := x mod B64.

(** The two halves of a 64-bit value, as the driver computes them:
    [(uint32_t)(value >> 32)] and [(uint32_t)(value)]. *)
Definition hi32 (x : Z) : Z := uint32 (Z.shiftr x 32).
Definition lo32 (x : Z) : Z := uint32 x.

(** [(((uint64_t)high) << 32) | low]. *)
Definition join64 (high low : Z) : Z := Z.lor (Z.shiftl high 32) low.

(** ** Target description

    Everything the two source files take from headers that are not part of
    the sources at hand: the register addresses of the [SysTimer] block, the
    constants of the per-hart region, bit masks and interrupt numbers. *)

Record SoC := {
  __RISCV_XLEN : Z;
  (* addresses of the fields of SysTimer_Type, i.e. &(SysTimer->FIELD) *)
  MTIMER_addr : Z;
  MTIMERCMP_addr : Z;
  MSFTRST_addr : Z;
  MTIMECTL_addr : Z;
  MSIP_addr : Z;
  (* per-hart region *)
  CLINT_MSIP_base : Z;
  CLINT_MSIP_stride : Z;
  CLINT_MTIMECMP_base : Z;
  CLINT_MTIMECMP_stride : Z;
  (* bit masks *)
  SysTimer_MTIMECTL_TIMESTOP_Msk : Z;
  SysTimer_MTIMECTL_CMPCLREN_Msk : Z;
  SysTimer_MTIMECTL_CLKSRC_Msk : Z;
  SysTimer_MSIP_MSIP_Msk : Z;
  SysTimer_MSIP_Msk : Z;
  (* interrupt numbers and modes *)
  SysTimer_IRQn : Z;
  ECLIC_NON_VECTOR_INTERRUPT : Z;
  SOC_INT_MAX : Z;
  (* address of the function system_default_exception_handler *)
  system_default_exception_handler : Z
}.

(** ** Device model *)

(** The memory-mapped state: the free-running 64-bit counter MTIMER and
    every other 32-bit word, by byte address (absent words read as 0). *)
Record mmio := Mmio {
  mtimer : Z;
  regs : gmap Z Z
}.

Inductive per_hart_reg := PH_MSIP | PH_MTIMECMP.

Inductive extern :=
  | X_ECLIC_SetShvIRQ | X_ECLIC_SetLevelIRQ | X_ECLIC_EnableIRQ
  | X_IRQC_SetVector | X_IRQC_EnableIRQ.

(** What a function does that is visible from outside, in program order. *)
Inductive event :=
  | EvResolve (r : per_hart_reg) (hartid : Z)   (* per-hart address computed *)
  | EvLoad (width addr value : Z)
  | EvStore (width addr value : Z)
  | EvCall (f : extern) (args : list Z).

(** The machine a hart runs on.  [pending] is the environment: the number of
    ticks by which the counter advances before each of the coming bus
    accesses (none left: the counter stands still).  [log] is ghost state:
    the events so far, each with the device state right after it. *)
Record hw := Hw {
  dev : mmio;
  pending : list Z;
  mhartid : Z;
  log : list (event * mmio)
}.

(** What a run from [s] to [s'] added to the log. *)
Definition new_log (s s' : hw) : list (event * mmio) :=
  drop (length (log s)) (log s').

Definition M (A : Type) : Type := hw -> A * hw.

Definition ret {A} (a : A) : M A := fun s => (a, s).
Definition bind {A B} (c : M A) (k : A -> M B) : M B :=
  fun s => let '(a, s') := c s in k a s'.

Declare Scope hw_scope.
Notation "x ← c ; k" := (bind c (fun x => k))
  (at level 20, c at level 100, k at level 200, only parsing) : hw_scope.
Notation "c ;; k" := (bind c (fun _ => k))
  (at level 100, k at level 200, only parsing, right associativity) : hw_scope.
Local Open Scope hw_scope.

Definition emit (e : event) : M unit :=
  fun s => (tt, Hw (dev s) (pending s) (mhartid s) (log s ++ [(e, dev s)])).

(** The counter runs on its own: before a bus access it has advanced by the
    next amount of [pending], modulo 2^64. *)
Definition tick : M unit :=
  fun s => match pending s with
           | [] => (tt, s)
           | d :: ds =>
               (tt, Hw (Mmio (uint64 (mtimer (dev s) + d)) (regs (dev s)))
                       ds (mhartid s) (log s))
           end.

Section Driver.

Variable soc : SoC.

(** Address decoding of one 32-bit word. *)
Definition read32 (m : mmio) (a : Z) : Z :=
  if a =? MTIMER_addr soc then lo32 (mtimer m)
  else if a =? MTIMER_addr soc + 4 then hi32 (mtimer m)
  else default 0 (regs m !! a).

Definition write32 (a v : Z) (m : mmio) : mmio :=
  if a =? MTIMER_addr soc then Mmio (hi32 (mtimer m) * B32 + v) (regs m)
  else if a =? MTIMER_addr soc + 4 then Mmio (v * B32 + lo32 (mtimer m)) (regs m)
  else Mmio (mtimer m) (<[a := v]> (regs m)).

Definition read64 (m : mmio) (a : Z) : Z :=
  read32 m (a + 4) * B32 + read32 m a.

Definition write64 (a v : Z) (m : mmio) : mmio :=
  write32 (a + 4) (hi32 v) (write32 a (lo32 v) m).

Definition get_dev : M mmio := fun s => (dev s, s).
Definition set_dev (m : mmio) : M unit :=
  fun s => (tt, Hw m (pending s) (mhartid s) (log s)).

(** *** Register access primitives: one load or store of the given width.
    An access to a field of the register block ([SysTimer->MSIP],
    [SysTimer->MTIMECTL], ...) is the load or store of the field's width at
    the field's address, and is written with the same primitives. *)

Definition __LW (addr : Z) : M Z :=
  tick;;
  m ← get_dev;
  let v := read32 m addr in
  emit (EvLoad 32 addr v);; ret v.

Definition __SW (addr val : Z) : M unit :=
  tick;;
  m ← get_dev;
  set_dev (write32 addr (uint32 val) m);;
  emit (EvStore 32 addr (uint32 val)).

Definition __LD (addr : Z) : M Z :=
  tick;;
  m ← get_dev;
  let v := read64 m addr in
  emit (EvLoad 64 addr v);; ret v.

Definition __SD (addr val : Z) : M unit :=
  tick;;
  m ← get_dev;
  set_dev (write64 addr (uint64 val) m);;
  emit (EvStore 64 addr (uint64 val)).

(** *** SysTimer_SetLoadValue *)
Definition SysTimer_SetLoadValue (value : Z) : M unit :=
  if __RISCV_XLEN soc =? 32 then
    let addr := MTIMER_addr soc in
    __SW addr 0;;                              (* prevent carry *)
    __SW (addr + 4) (uint32 (Z.shiftr value 32));;
    __SW addr (uint32 value)
  else
    __SD (MTIMER_addr soc) value.

(** *** SysTimer_GetLoadValue *)
Definition SysTimer_GetLoadValue : M Z :=
  if __RISCV_XLEN soc =? 32 then
    let addr := MTIMER_addr soc in
    high0 ← __LW (addr + 4);
    low ← __LW addr;
    high ← __LW (addr + 4);
    low ← (if negb (high0 =? high) then __LW addr else ret low);
    let full := join64 high low in
    ret full
  else
    __LD (MTIMER_addr soc).

(** Modelled from the spec: the macros [SysTimer_CLINT_MSIP_BASE] and
    [SysTimer_CLINT_MTIMECMP_BASE] (the per-hart address resolver) are defined
    in a header that is not among the sources; the spec gives the address of a
    per-hart register as [base + hartid * stride] for a fixed base and stride.
    Each use is recorded, so that a trace tells whether the resolver ran. *)
Definition SysTimer_CLINT_MSIP_BASE (hartid : Z) : M Z :=
  emit (EvResolve PH_MSIP hartid);;
  ret (CLINT_MSIP_base soc + hartid * CLINT_MSIP_stride soc).

Definition SysTimer_CLINT_MTIMECMP_BASE (hartid : Z) : M Z :=
  emit (EvResolve PH_MTIMECMP hartid);;
  ret (CLINT_MTIMECMP_base soc + hartid * CLINT_MTIMECMP_stride soc).

(** Modelled from the spec: [SysTimer_GetHartID] is not among the sources; the
    spec calls it the "get current hart id" primitive of the CPU. *)
Definition SysTimer_GetHartID : M Z := fun s => (mhartid s, s).

(** Modelled from the spec: [SysTimer_MTIMECTL_Msk] is not among the sources;
    the spec says the mask covers only the defined bits of the control
    register, which are TIMESTOP, CMPCLREN and CLKSRC. *)
Definition SysTimer_MTIMECTL_Msk : Z :=
  Z.lor (Z.lor (SysTimer_MTIMECTL_TIMESTOP_Msk soc)
               (SysTimer_MTIMECTL_CMPCLREN_Msk soc))
        (SysTimer_MTIMECTL_CLKSRC_Msk soc).

(** *** SysTimer_SetHartCompareValue *)
Definition SysTimer_SetHartCompareValue (value hartid : Z) : M unit :=
  if hartid =? 0 then
    if __RISCV_XLEN soc =? 32 then
      let addr := MTIMERCMP_addr soc in
      __SW addr (uint32 (-1));;                  (* prevent load > timecmp *)
      __SW (addr + 4) (uint32 (Z.shiftr value 32));;
      __SW addr (uint32 value)
    else
      __SD (MTIMERCMP_addr soc) value
  else
    addr ← SysTimer_CLINT_MTIMECMP_BASE hartid;
    if __RISCV_XLEN soc =? 32 then
      __SW addr (uint32 (-1));;                  (* prevent load > timecmp *)
      __SW (addr + 4) (uint32 (Z.shiftr value 32));;
      __SW addr (uint32 value)
    else
      __SD addr value.

Definition SysTimer_SetCompareValue (value : Z) : M unit :=
  hartid ← SysTimer_GetHartID;
  SysTimer_SetHartCompareValue value hartid.

(** *** SysTimer_GetHartCompareValue
    ([return SysTimer->MTIMERCMP] reads the 64-bit field as a whole.) *)
Definition SysTimer_GetHartCompareValue (hartid : Z) : M Z :=
  if hartid =? 0 then
    __LD (MTIMERCMP_addr soc)
  else
    addr ← SysTimer_CLINT_MTIMECMP_BASE hartid;
    if __RISCV_XLEN soc =? 32 then
      (* MTIMECMP didn't increase *)
      high ← __LW (addr + 4);
      low ← __LW addr;
      ret (join64 high low)
    else
      __LD addr.

Definition SysTimer_GetCompareValue : M Z :=
  hartid ← SysTimer_GetHartID;
  SysTimer_GetHartCompareValue hartid.

(** *** Control register *)
Definition SysTimer_Start : M unit :=
  v ← __LW (MTIMECTL_addr soc);
  __SW (MTIMECTL_addr soc)
       (Z.land v (Z.lnot (SysTimer_MTIMECTL_TIMESTOP_Msk soc))).

Definition SysTimer_Stop : M unit :=
  v ← __LW (MTIMECTL_addr soc);
  __SW (MTIMECTL_addr soc) (Z.lor v (SysTimer_MTIMECTL_TIMESTOP_Msk soc)).

Definition SysTimer_SetControlValue (mctl : Z) : M unit :=
  __SW (MTIMECTL_addr soc) (Z.land mctl SysTimer_MTIMECTL_Msk).

Definition SysTimer_GetControlValue : M Z :=
  v ← __LW (MTIMECTL_addr soc);
  ret (uint32 (Z.land v SysTimer_MTIMECTL_Msk)).

(** *** Software interrupt (MSIP) *)
Definition SysTimer_SetHartSWIRQ (hartid : Z) : M unit :=
  if hartid =? 0 then
    v ← __LW (MSIP_addr soc);
    __SW (MSIP_addr soc) (Z.lor v (SysTimer_MSIP_MSIP_Msk soc))
  else
    addr ← SysTimer_CLINT_MSIP_BASE hartid;
    __SW addr (SysTimer_MSIP_MSIP_Msk soc).

Definition SysTimer_SetSWIRQ : M unit :=
  hartid ← SysTimer_GetHartID;
  SysTimer_SetHartSWIRQ hartid.

Definition SysTimer_ClearHartSWIRQ (hartid : Z) : M unit :=
  if hartid =? 0 then
    v ← __LW (MSIP_addr soc);
    __SW (MSIP_addr soc) (Z.land v (Z.lnot (SysTimer_MSIP_MSIP_Msk soc)))
  else
    addr ← SysTimer_CLINT_MSIP_BASE hartid;
    __SW addr 0.

Definition SysTimer_ClearSWIRQ : M unit :=
  hartid ← SysTimer_GetHartID;
  SysTimer_ClearHartSWIRQ hartid.

Definition SysTimer_GetHartMsipValue (hartid : Z) : M Z :=
  if hartid =? 0 then
    v ← __LW (MSIP_addr soc);
    ret (uint32 (Z.land v (SysTimer_MSIP_Msk soc)))
  else
    addr ← SysTimer_CLINT_MSIP_BASE hartid;
    __LW addr.

Definition SysTimer_GetMsipValue : M Z :=
  hartid ← SysTimer_GetHartID;
  SysTimer_GetHartMsipValue hartid.

Definition SysTimer_SetHartMsipValue (msip hartid : Z) : M unit :=
  if hartid =? 0 then
    __SW (MSIP_addr soc) (Z.land msip (SysTimer_MSIP_Msk soc))
  else
    addr ← SysTimer_CLINT_MSIP_BASE hartid;
    __SW addr msip.

Definition SysTimer_SetMsipValue (msip : Z) : M unit :=
  hartid ← SysTimer_GetHartID;
  SysTimer_SetHartMsipValue msip hartid.

(** *** Inter-processor interrupts *)
Definition SysTimer_SendIPI (hartid : Z) : M unit :=
  addr ← SysTimer_CLINT_MSIP_BASE hartid;
  __SW addr 1.

Definition SysTimer_ClearIPI (hartid : Z) : M unit :=
  addr ← SysTimer_CLINT_MSIP_BASE hartid;
  __SW addr 0.

(** *** System tick
    The ECLIC functions are external to the driver; a call is an event. *)
Definition ECLIC_SetShvIRQ (IRQn shv : Z) : M unit :=
  emit (EvCall X_ECLIC_SetShvIRQ [IRQn; shv]).
Definition ECLIC_SetLevelIRQ (IRQn lvl : Z) : M unit :=
  emit (EvCall X_ECLIC_SetLevelIRQ [IRQn; lvl]).
Definition ECLIC_EnableIRQ (IRQn : Z) : M unit :=
  emit (EvCall X_ECLIC_EnableIRQ [IRQn]).

Definition SysTick_Config (ticks : Z) : M Z :=
  loadticks ← SysTimer_GetLoadValue;
  SysTimer_SetCompareValue (uint64 (ticks + loadticks));;
  ECLIC_SetShvIRQ (SysTimer_IRQn soc) (ECLIC_NON_VECTOR_INTERRUPT soc);;
  ECLIC_SetLevelIRQ (SysTimer_IRQn soc) 0;;
  ECLIC_EnableIRQ (SysTimer_IRQn soc);;
  ret 0.

Definition SysTick_HartConfig (ticks hartid : Z) : M Z :=
  loadticks ← SysTimer_GetLoadValue;
  SysTimer_SetHartCompareValue (uint64 (ticks + loadticks)) hartid;;
  ECLIC_SetShvIRQ (SysTimer_IRQn soc) (ECLIC_NON_VECTOR_INTERRUPT soc);;
  ECLIC_SetLevelIRQ (SysTimer_IRQn soc) 0;;
  ECLIC_EnableIRQ (SysTimer_IRQn soc);;
  ret 0.

Definition SysTick_Reload (ticks : Z) : M Z :=
  cur_ticks ← SysTimer_GetLoadValue;
  let reload_ticks := uint64 (ticks + cur_ticks) in
  (if reload_ticks >? cur_ticks then
     SysTimer_SetCompareValue reload_ticks
   else
     (* the MTIMERCMP is overflowed: reset the counter to zero *)
     SysTimer_SetLoadValue 0;;
     SysTimer_SetCompareValue ticks);;
  ret 0.

Definition SysTick_HartReload (ticks hartid : Z) : M Z :=
  cur_ticks ← SysTimer_GetLoadValue;
  let reload_ticks := uint64 (ticks + cur_ticks) in
  (if reload_ticks >? cur_ticks then
     SysTimer_SetHartCompareValue reload_ticks hartid
   else
     (* the MTIMERCMP is overflowed: reset the counter to zero *)
     SysTimer_SetLoadValue 0;;
     SysTimer_SetHartCompareValue ticks hartid);;
  ret 0.

End Driver.

(** ** system_evalsoc.c *)

Section System.

Variable soc : SoC.

Definition MAX_SYSTEM_EXCEPTION_NUM : Z := 12.

(** [static unsigned long SystemExceptionHandlers[MAX_SYSTEM_EXCEPTION_NUM]]
    is passed explicitly, as a list of that length. *)
Definition table_ok (tbl : list Z) : Prop :=
  length tbl = Z.to_nat MAX_SYSTEM_EXCEPTION_NUM.

(** [for (int i = 0; i < MAX_SYSTEM_EXCEPTION_NUM; i++)] *)
Definition Exception_Init (tbl : list Z) : list Z :=
  fold_left
    (fun t (i : nat) => <[i := system_default_exception_handler soc]> t)
    (seq 0 (Z.to_nat MAX_SYSTEM_EXCEPTION_NUM)) tbl.

Definition Exception_Register_EXC (EXCn exc_handler : Z) (tbl : list Z)
  : list Z :=
  if EXCn <? MAX_SYSTEM_EXCEPTION_NUM then
    <[Z.to_nat EXCn := exc_handler]> tbl
  else tbl.

(** The function has a [return] on one path only: [None] is control reaching
    the closing brace without one. *)
Definition Exception_Get_EXC (EXCn : Z) (tbl : list Z) : option Z :=
  if EXCn <? MAX_SYSTEM_EXCEPTION_NUM then
    Some (tbl !!! Z.to_nat EXCn)
  else None.

(** A call through a handler reference: [exc_handler(mcause, sp)]. *)
Inductive invocation := Invoke (handler mcause sp : Z).

(** The calls made, and the value returned once the handler is back. *)
Definition core_exception_handler (mcause sp : Z) (tbl : list Z)
  : list invocation * Z :=
  let EXCn := uint32 (Z.land mcause 0xfff) in
  let exc_handler :=
    if EXCn <? MAX_SYSTEM_EXCEPTION_NUM then tbl !!! Z.to_nat EXCn
    else system_default_exception_handler soc in
  ((if negb (exc_handler =? 0) then [Invoke exc_handler mcause sp] else []),
   0).

(** The handler the dispatcher is to select for [mcause]: the entry of the
    table for the low 12 bits of [mcause] where [Exception_Get_EXC] returns
    one, the default handler where it does not. *)
Definition selected_handler (mcause : Z) (tbl : list Z) : Z :=
  default (system_default_exception_handler soc)
          (Exception_Get_EXC (mcause mod 4096) tbl).

(** Dispatch in its plain reading: the selected handler is invoked. *)
Definition plain_dispatch (mcause sp : Z) (tbl : list Z) : Prop :=
  (core_exception_handler mcause sp tbl).1
  = [Invoke (selected_handler mcause tbl) mcause sp].

(** [IRQC_SetVector] and [IRQC_EnableIRQ] are external; a call is an event. *)
Definition IRQC_SetVector (IRQn vector : Z) : M unit :=
  emit (EvCall X_IRQC_SetVector [IRQn; vector]).
Definition IRQC_EnableIRQ (IRQn : Z) : M unit :=
  emit (EvCall X_IRQC_EnableIRQ [IRQn]).

Definition IRQC_Register_IRQ (IRQn handler : Z) : M Z :=
  (if IRQn >=? SOC_INT_MAX soc then ret tt else ret tt);;
  (if negb (handler =? 0) then IRQC_SetVector IRQn handler else ret tt);;
  IRQC_EnableIRQ IRQn;;
  ret 0.

End System.

(** ** Vocabulary of the properties *)

(** The device after the counter has advanced for the next access. *)
Definition advanced (m : mmio) (ds : list Z) : mmio :=
  match ds with
  | [] => m
  | d :: _ => Mmio (uint64 (mtimer m + d)) (regs m)
  end.

(** An event without the values that went over the bus. *)
Inductive access :=
  | Resolved (r : per_hart_reg) (hartid : Z)
  | Read (width addr : Z)
  | Write (width addr : Z)
  | Called (f : extern).

Definition shape (e : event) : access :=
  match e with
  | EvResolve r h => Resolved r h
  | EvLoad w a _ => Read w a
  | EvStore w a _ => Write w a
  | EvCall f _ => Called f
  end.

(** What running [c] from [s] adds to the log: the events, the device states
    right after them, and the shapes of the events. *)
Definition events_of {A} (c : M A) (s : hw) : list event :=
  (new_log s (c s).2).*1.
Definition states_of {A} (c : M A) (s : hw) : list mmio :=
  (new_log s (c s).2).*2.
Definition footprint {A} (c : M A) (s : hw) : list access :=
  shape <$> events_of c s.

Section Vocabulary.

Variable soc : SoC.

(** The counter values at the instants at which the low word of MTIMER was
    loaded, in program order. *)
Definition low_reads (l : list (event * mmio)) : list Z :=
  omap (fun em : event * mmio =>
          match em.1 with
          | EvLoad _ a _ =>
              if a =? MTIMER_addr soc then Some (mtimer em.2) else None
          | _ => None
          end) l.

(** A read of the counter is untorn when the value returned is the value the
    counter had at the instant at which the low half that is returned was
    loaded (the last load of the low word): the high half returned is the one
    that belongs to that low half. *)
Definition untorn_read (s : hw) : Prop :=
  let '(r, s') := SysTimer_GetLoadValue soc s in
  last (low_reads (new_log s s')) = Some r.

(** The counter at the [k]-th coming bus access ([k] from 0), had it no
    upper bound. *)
Definition ideal_counter (k : nat) (s : hw) : Z :=
  mtimer (dev s) + foldr Z.add 0 (take (S k) (pending s)).

(** How often the low word wraps around (carries into the high word) while
    the counter runs from [t] to [t']. *)
Definition carries (t t' : Z) : Z := t' / B32 - t / B32.

(** The address a per-hart register is resolved to. *)
Definition per_hart_addr (r : per_hart_reg) (hartid : Z) : Z :=
  match r with
  | PH_MSIP => CLINT_MSIP_base soc + hartid * CLINT_MSIP_stride soc
  | PH_MTIMECMP => CLINT_MTIMECMP_base soc + hartid * CLINT_MTIMECMP_stride soc
  end.

(** The compare register of a hart, and its 64-bit content. *)
Definition compare_addr (hartid : Z) : Z :=
  if hartid =? 0 then MTIMERCMP_addr soc
  else per_hart_addr PH_MTIMECMP hartid.

Definition compare_reg (hartid : Z) (m : mmio) : Z :=
  read64 soc m (compare_addr hartid).

(** The 64-bit register at [a] shares no word with MTIMER. *)
Definition apart_from_counter (a : Z) : Prop :=
  a + 8 <= MTIMER_addr soc \/ MTIMER_addr soc + 8 <= a.

(** The word at [a] is not one of the two words of MTIMER. *)
Definition not_counter_word (a : Z) : Prop :=
  a <> MTIMER_addr soc /\ a <> MTIMER_addr soc + 4.

(** The word of the device at [a] holds 32 bits. *)
Definition word_ok (m : mmio) (a : Z) : Prop := 0 <= read32 soc m a < B32.

(** The machine [s'] has the counter at [counter'] and the compare register
    of hart [h] at [compare']. *)
Definition tick_outcome (h : Z) (s' : hw) (counter' compare' : Z) : Prop :=
  mtimer (dev s') = counter' /\ compare_reg h (dev s') = compare'.

(** The overflow policy in its plain reading: if [ticks + counter] fits in
    64 bits, the counter is left alone and the compare register is set to
    the sum; if not, the counter is reset and the compare register is set to
    [ticks]. *)
Definition plain_overflow_policy (run : M Z) (h ticks : Z) (s : hw) : Prop :=
  let counter := mtimer (dev s) in
  if ticks + counter <? B64
  then tick_outcome h (run s).2 counter (ticks + counter)
  else tick_outcome h (run s).2 0 ticks.

End Vocabulary.

(** A sample 32-bit target on which the model is evaluated. *)
Definition sample_rv32 : SoC := {|
  __RISCV_XLEN := 32;
  MTIMER_addr := 0x1000;
  MTIMERCMP_addr := 0x1008;
  MSFTRST_addr := 0x1FF0;
  MTIMECTL_addr := 0x1FF8;
  MSIP_addr := 0x1FFC;
  CLINT_MSIP_base := 0x2000;
  CLINT_MSIP_stride := 4;
  CLINT_MTIMECMP_base := 0x6000;
  CLINT_MTIMECMP_stride := 8;
  SysTimer_MTIMECTL_TIMESTOP_Msk := 1;
  SysTimer_MTIMECTL_CMPCLREN_Msk := 2;
  SysTimer_MTIMECTL_CLKSRC_Msk := 4;
  SysTimer_MSIP_MSIP_Msk := 1;
  SysTimer_MSIP_Msk := 0xFFFFFFFF;
  SysTimer_IRQn := 7;
  ECLIC_NON_VECTOR_INTERRUPT := 0;
  SOC_INT_MAX := 32;
  system_default_exception_handler := 0x80001000
|}.

(** The same target with 64-bit registers. *)
Definition sample_rv64 : SoC := {|
  __RISCV_XLEN := 64;
  MTIMER_addr := 0x1000;
  MTIMERCMP_addr := 0x1008;
  MSFTRST_addr := 0x1FF0;
  MTIMECTL_addr := 0x1FF8;
  MSIP_addr := 0x1FFC;
  CLINT_MSIP_base := 0x2000;
  CLINT_MSIP_stride := 4;
  CLINT_MTIMECMP_base := 0x6000;
  CLINT_MTIMECMP_stride := 8;
  SysTimer_MTIMECTL_TIMESTOP_Msk := 1;
  SysTimer_MTIMECTL_CMPCLREN_Msk := 2;
  SysTimer_MTIMECTL_CLKSRC_Msk := 4;
  SysTimer_MSIP_MSIP_Msk := 1;
  SysTimer_MSIP_Msk := 0xFFFFFFFF;
  SysTimer_IRQn := 7;
  ECLIC_NON_VECTOR_INTERRUPT := 0;
  SOC_INT_MAX := 32;
  system_default_exception_handler := 0x80001000
|}.

(** A machine at rest: counter at [c], all other registers clear, nothing
    logged, and the counter advancing by [ds] before the coming accesses. *)
Definition boot (c : Z) (ds : list Z) (hartid : Z) : hw :=
  Hw (Mmio c ∅) ds hartid [].

(** ** Further vocabulary *)

Section Registers.

Variable soc : SoC.

(** The software-interrupt register of a hart. *)
Definition msip_addr (hartid : Z) : Z :=
  if hartid =? 0 then MSIP_addr soc else per_hart_addr soc PH_MSIP hartid.

(** Two 64-bit registers that share no word. *)
Definition disjoint_regs (a a' : Z) : Prop := a + 8 <= a' \/ a' + 8 <= a.

(** A store to one of the two words of MTIMER. *)
Definition touches_counter (a : access) : Prop :=
  match a with
  | Write _ addr => addr = MTIMER_addr soc \/ addr = MTIMER_addr soc + 4
  | _ => False
  end.

End Registers.

(** * Properties *)

(** ** The model on concrete inputs *)

Example SendIPI_hart0_is_indexed :
  events_of (SysTimer_SendIPI sample_rv32 0) (boot 0 [] 0)
  = [EvResolve PH_MSIP 0; EvStore 32 0x2000 1].
Proof. reflexivity. Qed.

Example SetHartSWIRQ_hart0_is_fixed :
  events_of (SysTimer_SetHartSWIRQ sample_rv32 0) (boot 0 [] 0)
  = [EvLoad 32 0x1FFC 0; EvStore 32 0x1FFC 1].
Proof. reflexivity. Qed.

Example GetLoadValue_rv32_carry :
  SysTimer_GetLoadValue sample_rv32 (boot 0xFFFFFFFF [0; 1] 0)
  = (0x100000000,
     Hw (Mmio 0x100000000 ∅) [] 0
        [(EvLoad 32 0x1004 0, Mmio 0xFFFFFFFF ∅);
         (EvLoad 32 0x1000 0, Mmio 0x100000000 ∅);
         (EvLoad 32 0x1004 1, Mmio 0x100000000 ∅);
         (EvLoad 32 0x1000 0, Mmio 0x100000000 ∅)]).
Proof. reflexivity. Qed.

Example GetLoadValue_rv64_single_load :
  events_of (SysTimer_GetLoadValue sample_rv64) (boot 0x1FFFFFFFF [1] 0)
  = [EvLoad 64 0x1000 0x200000000].
Proof. reflexivity. Qed.

Example Reload_rv64_wraps :
  let s' := (SysTick_Reload sample_rv64 0xFFFFFFFFFFFFFFFF (boot 5 [] 0)).2 in
  mtimer (dev s') = 0 /\ compare_reg sample_rv64 0 (dev s') = 0xFFFFFFFFFFFFFFFF.
Proof. vm_compute. split; reflexivity. Qed.

Example Exception_Init_fills_table :
  Exception_Init sample_rv32 (replicate 12 0) = replicate 12 0x80001000.
Proof. reflexivity. Qed.

Example dispatch_registered_handler :
  core_exception_handler sample_rv32 0x80000002 0x20000
    (Exception_Register_EXC 2 0x80002000
       (Exception_Init sample_rv32 (replicate 12 0)))
  = ([Invoke 0x80002000 0x80000002 0x20000], 0).
Proof. reflexivity. Qed.

(** ** Arithmetic of the halves *)

Lemma uint32_range x : 0 <= uint32 x < B32.
Proof. unfold uint32. apply Z.mod_pos_bound. lia. Qed.

Lemma uint64_range x : 0 <= uint64 x < B64.
Proof. unfold uint64. apply Z.mod_pos_bound. lia. Qed.

Lemma hi32_div x : hi32 x = (x / B32) mod B32.
Proof. unfold hi32, uint32. now rewrite Z.shiftr_div_pow2 by lia. Qed.

Lemma hi32_range x : 0 <= hi32 x < B32.
Proof. apply uint32_range. Qed.

Lemma lo32_range x : 0 <= lo32 x < B32.
Proof. apply uint32_range. Qed.

Lemma join64_add high low :
  0 <= low < B32 -> join64 high low = high * B32 + low.
Proof.
  intros Hl. unfold join64.
  replace (high * B32) with (Z.shiftl high 32)
    by (rewrite Z.shiftl_mul_pow2 by lia; reflexivity).
  symmetry. apply Z.add_nocarry_lor.
  apply Z.bits_inj'. intros n Hn.
  rewrite Z.land_spec, Z.bits_0.
  destruct (Z.lt_ge_cases n 32) as [Hlt | Hge].
  - rewrite Z.shiftl_spec_low by lia. reflexivity.
  - assert (Z.testbit low n = false) as ->; [| apply andb_false_r].
    destruct (Z.eq_dec low 0) as [-> | Hnz]; [apply Z.bits_0 |].
    apply Z.bits_above_log2; [lia |].
    apply Z.log2_lt_pow2; [lia |].
    apply Z.lt_le_trans with (2 ^ 32); [lia |].
    apply Z.pow_le_mono_r; lia.
Qed.

Lemma halves_join x : 0 <= x < B64 -> hi32 x * B32 + lo32 x = x.
Proof.
  intros Hx. rewrite hi32_div. unfold lo32, uint32.
  rewrite (Z.mod_small (x / B32)).
  - symmetry. rewrite Z.mul_comm. apply Z.div_mod. lia.
  - split; [apply Z.div_pos; lia |].
    apply Z.div_lt_upper_bound; lia.
Qed.

(** ** Running the access primitives *)

Section Run.

Variable soc : SoC.

Lemma read32_lo m : read32 soc m (MTIMER_addr soc) = lo32 (mtimer m).
Proof. unfold read32. now rewrite Z.eqb_refl. Qed.

Lemma read32_hi m : read32 soc m (MTIMER_addr soc + 4) = hi32 (mtimer m).
Proof.
  unfold read32. rewrite Z.eqb_refl.
  destruct (Z.eqb_spec (MTIMER_addr soc + 4) (MTIMER_addr soc)); [lia | easy].
Qed.

Lemma __LW_run a m ds hid lg :
  __LW soc a (Hw m ds hid lg) =
  let m' := advanced m ds in
  let v := read32 soc m' a in
  (v, Hw m' (tail ds) hid (lg ++ [(EvLoad 32 a v, m')])).
Proof. destruct ds; reflexivity. Qed.

Lemma __SW_run a v m ds hid lg :
  __SW soc a v (Hw m ds hid lg) =
  let m' := write32 soc a (uint32 v) (advanced m ds) in
  (tt, Hw m' (tail ds) hid (lg ++ [(EvStore 32 a (uint32 v), m')])).
Proof. destruct ds; reflexivity. Qed.

Lemma __LD_run a m ds hid lg :
  __LD soc a (Hw m ds hid lg) =
  let m' := advanced m ds in
  let v := read64 soc m' a in
  (v, Hw m' (tail ds) hid (lg ++ [(EvLoad 64 a v, m')])).
Proof. destruct ds; reflexivity. Qed.

Lemma __SD_run a v m ds hid lg :
  __SD soc a v (Hw m ds hid lg) =
  let m' := write64 soc a (uint64 v) (advanced m ds) in
  (tt, Hw m' (tail ds) hid (lg ++ [(EvStore 64 a (uint64 v), m')])).
Proof. destruct ds; reflexivity. Qed.

Lemma new_log_app m ds hid lg m' ds' hid' k :
  new_log (Hw m ds hid lg) (Hw m' ds' hid' (lg ++ k)) = k.
Proof. unfold new_log. simpl. apply drop_app_length. Qed.

Lemma advanced_counter m ds T :
  mtimer m = uint64 T -> mtimer (advanced m ds) = uint64 (T + nth 0 ds 0).
Proof.
  intros H. destruct ds as [| d ds]; simpl.
  - now rewrite Z.add_0_r.
  - rewrite H. unfold uint64. apply Zplus_mod_idemp_l.
Qed.

Lemma nth_0_nonneg (ds : list Z) :
  Forall (fun d => 0 <= d) ds -> 0 <= nth 0 ds 0.
Proof. destruct 1; simpl; lia. Qed.

Lemma Forall_tail_nonneg (ds : list Z) :
  Forall (fun d => 0 <= d) ds -> Forall (fun d => 0 <= d) (tail ds).
Proof. destruct 1; simpl; auto. Qed.

Lemma low_reads_app l k : low_reads soc (l ++ k) = low_reads soc l ++ low_reads soc k.
Proof. apply omap_app. Qed.

Lemma low_reads_low w v m :
  low_reads soc [(EvLoad w (MTIMER_addr soc) v, m)] = [mtimer m].
Proof. unfold low_reads. simpl. now rewrite Z.eqb_refl. Qed.

Lemma low_reads_high w v m :
  low_reads soc [(EvLoad w (MTIMER_addr soc + 4) v, m)] = [].
Proof.
  unfold low_reads. simpl.
  destruct (Z.eqb_spec (MTIMER_addr soc + 4) (MTIMER_addr soc)); [lia | easy].
Qed.

End Run.


Lemma double_read_arith T0 T1 T2 T3 :
  T0 <= T1 <= T2 -> T2 <= T3 -> carries T0 T3 <= 1 ->
  (hi32 (uint64 T0) = hi32 (uint64 T2) ->
   hi32 (uint64 T2) * B32 + lo32 (uint64 T1) = uint64 T1) /\
  (hi32 (uint64 T0) <> hi32 (uint64 T2) ->
   hi32 (uint64 T2) * B32 + lo32 (uint64 T3) = uint64 T3).
Proof.
  unfold carries. rewrite !hi32_div. unfold lo32, uint32, uint64.
  intros H1 H2 H3. Z.div_mod_to_equations. lia.
Qed.

Lemma ideal_counter_unfold c rg ds hid lg :
  let s := Hw (Mmio c rg) ds hid lg in
  ideal_counter 0 s = c + nth 0 ds 0 /\
  ideal_counter 3 s =
    c + nth 0 ds 0 + nth 0 (tail ds) 0 + nth 0 (tail (tail ds)) 0
      + nth 0 (tail (tail (tail ds))) 0.
Proof.
  unfold ideal_counter.
  destruct ds as [| d0 [| d1 [| d2 [| d3 rest]]]]; simpl; lia.
Qed.


(** ** SysTimer_GetLoadValue *)

(** C1 (as amended).  On a 32-bit core [SysTimer_GetLoadValue] loads the high
    word, the low word and the high word again, and loads the low word once
    more exactly when the two high words differ; what it returns is the
    second high word joined with the last low word loaded.  For every
    counter that only moves forward between the loads and whose low word
    carries into the high word at most once between the first load and the
    (possible) reload of the low word, the value returned is untorn: it is
    the value the counter had at the instant at which the returned low half
    was loaded. *)
Theorem SysTimer_GetLoadValue_double_read_high soc s :
  __RISCV_XLEN soc = 32 ->
  0 <= mtimer (dev s) < B64 ->
  Forall (fun d => 0 <= d) (pending s) ->
  carries (ideal_counter 0 s) (ideal_counter 3 s) <= 1 ->
  let a := MTIMER_addr soc in
  (exists high0 low high low',
     events_of (SysTimer_GetLoadValue soc) s =
       [EvLoad 32 (a + 4) high0; EvLoad 32 a low; EvLoad 32 (a + 4) high]
       ++ (if high0 =? high then [] else [EvLoad 32 a low'])
     /\ (SysTimer_GetLoadValue soc s).1 =
        join64 high (if high0 =? high then low else low'))
  /\ untorn_read soc s.
Proof.
  intros HX Hc Hd Hcar.
  destruct s as [[c rg] ds hid lg]. simpl in Hc, Hd.
  destruct (ideal_counter_unfold c rg ds hid lg) as [E0 E3].
  rewrite E0, E3 in Hcar. clear E0 E3.
  unfold untorn_read, events_of, SysTimer_GetLoadValue.
  rewrite HX, Z.eqb_refl.
  cbv beta iota zeta delta [bind ret].
  do 3 (rewrite __LW_run; cbv beta iota zeta).
  set (m0 := advanced (Mmio c rg) ds).
  set (m1 := advanced m0 (tail ds)).
  set (m2 := advanced m1 (tail (tail ds))).
  rewrite !read32_hi, !read32_lo.
  pose proof (nth_0_nonneg _ Hd) as N0.
  pose proof (Forall_tail_nonneg _ Hd) as Hd1.
  pose proof (nth_0_nonneg _ Hd1) as N1.
  pose proof (Forall_tail_nonneg _ Hd1) as Hd2.
  pose proof (nth_0_nonneg _ Hd2) as N2.
  pose proof (nth_0_nonneg _ (Forall_tail_nonneg _ Hd2)) as N3.
  assert (C0 : mtimer m0 = uint64 (c + nth 0 ds 0)).
  { apply advanced_counter. simpl. unfold uint64. now rewrite Z.mod_small. }
  pose proof (advanced_counter m0 (tail ds) _ C0) as C1. fold m1 in C1.
  pose proof (advanced_counter m1 (tail (tail ds)) _ C1) as C2. fold m2 in C2.
  pose proof (advanced_counter m2 (tail (tail (tail ds))) _ C2) as C3.
  set (T0 := c + nth 0 ds 0) in *.
  set (T1 := T0 + nth 0 (tail ds) 0) in *.
  set (T2 := T1 + nth 0 (tail (tail ds)) 0) in *.
  set (T3 := T2 + nth 0 (tail (tail (tail ds))) 0) in *.
  destruct (double_read_arith T0 T1 T2 T3) as [Same Diff];
    [lia | lia | exact Hcar |].
  rewrite <- C0, <- C1, <- C2 in Same.
  rewrite <- C0, <- C2, <- C3 in Diff.
  destruct (Z.eqb_spec (hi32 (mtimer m0)) (hi32 (mtimer m2))) as [Heq | Hne];
    cbv beta iota zeta delta [negb].
  - cbn [fst snd]. rewrite <- !app_assoc, !new_log_app. split.
    + exists (hi32 (mtimer m0)), (lo32 (mtimer m1)), (hi32 (mtimer m2)), 0.
      destruct (Z.eqb_spec (hi32 (mtimer m0)) (hi32 (mtimer m2))); [easy | lia].
    + rewrite !low_reads_app, !low_reads_high, low_reads_low. simpl.
      rewrite join64_add by apply lo32_range. f_equal. symmetry. auto.
  - rewrite __LW_run. cbv beta iota zeta. rewrite read32_lo.
    cbn [fst snd]. rewrite <- !app_assoc, !new_log_app. split.
    + exists (hi32 (mtimer m0)), (lo32 (mtimer m1)), (hi32 (mtimer m2)),
        (lo32 (mtimer (advanced m2 (tail (tail (tail ds)))))).
      destruct (Z.eqb_spec (hi32 (mtimer m0)) (hi32 (mtimer m2))); [lia | easy].
    + rewrite !low_reads_app, !low_reads_high, !low_reads_low. simpl.
      rewrite join64_add by apply lo32_range. f_equal. symmetry. auto.
Qed.

(** The theorem at a counter that carries once, between the first and the
    second load. *)
Lemma SysTimer_GetLoadValue_one_carry :
  untorn_read sample_rv32 (boot 0xFFFFFFFF [0; 1; 1; 1] 0)
  /\ (SysTimer_GetLoadValue sample_rv32 (boot 0xFFFFFFFF [0; 1; 1; 1] 0)).1
     = 0x100000002.
Proof.
  split.
  - apply (SysTimer_GetLoadValue_double_read_high
             sample_rv32 (boot 0xFFFFFFFF [0; 1; 1; 1] 0)).
    + reflexivity.
    + simpl; lia.
    + repeat constructor; lia.
    + vm_compute. discriminate.
  - vm_compute. reflexivity.
Defined.

(** C1 as stated fails: a counter that only moves forward, but whose low
    word carries twice while the function runs (once before the second load
    of the high word, once more before the reload of the low word).  The
    loads see 0x0_FFFFFFFE, 0x0_FFFFFFFF, 0x1_00000000 and 0x2_00000005;
    the function returns 0x1_00000005, whose high half is not the one the
    counter had when the low half 5 was loaded. *)
Lemma SysTimer_GetLoadValue_two_carries_torn :
  let s := boot 0xFFFFFFFE [0; 1; 1; 0x100000005] 0 in
  __RISCV_XLEN sample_rv32 = 32
  /\ Forall (fun d => 0 < d) (tail (pending s))
  /\ mtimer <$> states_of (SysTimer_GetLoadValue sample_rv32) s
     = [0xFFFFFFFE; 0xFFFFFFFF; 0x100000000; 0x200000005]
  /\ (SysTimer_GetLoadValue sample_rv32 s).1 = 0x100000005
  /\ ~ untorn_read sample_rv32 s.
Proof.
  cbv zeta. split; [reflexivity |].
  split; [repeat constructor; lia |].
  split; [vm_compute; reflexivity |].
  split; [vm_compute; reflexivity |].
  unfold untorn_read. vm_compute. discriminate.
Qed.

(** ** Stores to the device *)

Section Stores.

Variable soc : SoC.

Lemma uint32_idem x : uint32 (uint32 x) = uint32 x.
Proof. unfold uint32. apply Z.mod_mod. lia. Qed.

Lemma uint32_small x : 0 <= x < B32 -> uint32 x = x.
Proof. apply Z.mod_small. Qed.

Lemma uint64_small x : 0 <= x < B64 -> uint64 x = x.
Proof. apply Z.mod_small. Qed.



Lemma write32_lo v m :
  write32 soc (MTIMER_addr soc) v m = Mmio (hi32 (mtimer m) * B32 + v) (regs m).
Proof. unfold write32. now rewrite Z.eqb_refl. Qed.

Lemma write32_hi v m :
  write32 soc (MTIMER_addr soc + 4) v m
  = Mmio (v * B32 + lo32 (mtimer m)) (regs m).
Proof.
  unfold write32. rewrite Z.eqb_refl.
  destruct (Z.eqb_spec (MTIMER_addr soc + 4) (MTIMER_addr soc)); [lia | easy].
Qed.

Lemma write32_reg a v m :
  not_counter_word soc a ->
  write32 soc a v m = Mmio (mtimer m) (<[a := v]> (regs m)).
Proof.
  intros [H1 H2]. unfold write32.
  destruct (Z.eqb_spec a (MTIMER_addr soc)); [easy |].
  destruct (Z.eqb_spec a (MTIMER_addr soc + 4)); easy.
Qed.

Lemma read32_reg a m :
  not_counter_word soc a -> read32 soc m a = default 0 (regs m !! a).
Proof.
  intros [H1 H2]. unfold read32.
  destruct (Z.eqb_spec a (MTIMER_addr soc)); [easy |].
  destruct (Z.eqb_spec a (MTIMER_addr soc + 4)); easy.
Qed.

Lemma read32_write32_same a v m :
  not_counter_word soc a -> read32 soc (write32 soc a v m) a = v.
Proof.
  intros H. rewrite write32_reg, read32_reg by assumption. simpl.
  now rewrite lookup_insert_eq.
Qed.

Lemma read32_write32_diff a b v m :
  not_counter_word soc a -> a <> b ->
  read32 soc (write32 soc a v m) b = read32 soc m b.
Proof.
  intros H Hab. rewrite write32_reg by assumption.
  unfold read32. simpl. now rewrite lookup_insert_ne.
Qed.

Lemma read32_advanced b m ds :
  not_counter_word soc b -> read32 soc (advanced m ds) b = read32 soc m b.
Proof.
  intros H. rewrite !read32_reg by assumption. now destruct ds.
Qed.

Lemma mtimer_write32 a v m :
  not_counter_word soc a -> mtimer (write32 soc a v m) = mtimer m.
Proof. intros H. now rewrite write32_reg. Qed.

Lemma resolve_MTIMECMP_run h m ds hid lg :
  SysTimer_CLINT_MTIMECMP_BASE soc h (Hw m ds hid lg)
  = (per_hart_addr soc PH_MTIMECMP h,
     Hw m ds hid (lg ++ [(EvResolve PH_MTIMECMP h, m)])).
Proof. reflexivity. Qed.

Lemma resolve_MSIP_run h m ds hid lg :
  SysTimer_CLINT_MSIP_BASE soc h (Hw m ds hid lg)
  = (per_hart_addr soc PH_MSIP h,
     Hw m ds hid (lg ++ [(EvResolve PH_MSIP h, m)])).
Proof. reflexivity. Qed.

End Stores.

(** ** SysTimer_SetLoadValue *)

Lemma zero_low_first_arith old value :
  0 <= old < B64 -> 0 <= value < B64 ->
  hi32 old * B32 + 0 <= old
  /\ hi32 value * B32 + lo32 (hi32 old * B32 + 0) = hi32 value * B32
  /\ hi32 value * B32 <= value
  /\ hi32 (hi32 value * B32) * B32 + lo32 value = value.
Proof.
  intros Ho Hv. rewrite !hi32_div. unfold lo32, uint32.
  Z.div_mod_to_equations. lia.
Qed.



(** ** SysTimer_SetHartCompareValue *)

Section Compare.

Variable soc : SoC.

Lemma apart_not_counter_lo a :
  apart_from_counter soc a -> not_counter_word soc a.
Proof. unfold apart_from_counter, not_counter_word. lia. Qed.

Lemma apart_not_counter_hi a :
  apart_from_counter soc a -> not_counter_word soc (a + 4).
Proof. unfold apart_from_counter, not_counter_word. lia. Qed.

End Compare.

Create HintDb addr.
#[local] Hint Resolve apart_not_counter_lo apart_not_counter_hi : addr.

(** Reads of words that the preceding stores and ticks left alone. *)
Ltac addr := solve [eauto with addr | lia].
Ltac simpl_reads :=
  repeat first
    [ rewrite read32_write32_same by addr
    | rewrite read32_write32_diff by addr
    | rewrite read32_advanced by addr ].

(** One goal for each element of a list that is written out. *)
Ltac Forall_list :=
  repeat match goal with
         | |- Forall _ (_ :: _) => apply List.Forall_cons
         | |- Forall _ [] => apply List.Forall_nil
         end.

(** C2.  On a 32-bit core and for every hart, [SysTimer_SetHartCompareValue]
    stores all-ones to the low word of the hart's compare register, then the
    new high half, then the new low half.  Whenever the old and the new
    compare value are both above [counter], the compare register is above
    [counter] after each of these stores (and at the end holds the new
    value): it never holds a value at or below [counter] in between. *)
Theorem SysTimer_SetHartCompareValue_never_below soc s value hartid counter :
  __RISCV_XLEN soc = 32 ->
  apart_from_counter soc (compare_addr soc hartid) ->
  word_ok soc (dev s) (compare_addr soc hartid) ->
  word_ok soc (dev s) (compare_addr soc hartid + 4) ->
  0 <= value < B64 ->
  counter < compare_reg soc hartid (dev s) ->
  counter < value ->
  let a := compare_addr soc hartid in
  let run := SysTimer_SetHartCompareValue soc value hartid in
  events_of run s
    = (if hartid =? 0 then [] else [EvResolve PH_MTIMECMP hartid])
      ++ [EvStore 32 a 0xFFFFFFFF; EvStore 32 (a + 4) (hi32 value);
          EvStore 32 a (lo32 value)]
  /\ Forall (fun m => counter < compare_reg soc hartid m) (states_of run s)
  /\ compare_reg soc hartid (dev (run s).2) = value.
Proof.
  intros HX Ha [L0 L1] [H0 H1] Hv Hold Hnew a run. subst run.
  destruct s as [m ds hid lg]. simpl in L0, L1, H0, H1, Hold.
  unfold compare_reg in *. fold a in Ha, L0, L1, H0, H1, Hold |- *.
  unfold events_of, states_of, SysTimer_SetHartCompareValue.
  rewrite HX, Z.eqb_refl.
  pose proof (halves_join value Hv) as Hj.
  pose proof (lo32_range value) as Hl.
  assert (Ea : a = if hartid =? 0 then MTIMERCMP_addr soc
                   else per_hart_addr soc PH_MTIMECMP hartid) by reflexivity.
  destruct (hartid =? 0);
    cbv beta iota zeta delta [bind];
    rewrite ?resolve_MTIMECMP_run; cbv beta iota zeta;
    rewrite <- Ea; clear Ea;
    do 3 (rewrite __SW_run; cbv beta iota zeta);
    cbn [fst snd dev]; rewrite <- !app_assoc, !new_log_app;
    rewrite !uint32_idem;
    change (uint32 (Z.shiftr value 32)) with (hi32 value);
    change (uint32 value) with (lo32 value);
    change (uint32 (-1)) with 0xFFFFFFFF;
    (split; [reflexivity |]);
    cbn [fmap list_fmap app snd];
    (split; [Forall_list |]);
    unfold read64 in *; cbn [snd]; simpl_reads; lia.
Qed.

Lemma SysTimer_SetHartCompareValue_never_below_at_sample :
  let s := (SysTimer_SetHartCompareValue sample_rv32 0x1FFFFFFFF 2
              (boot 0 [] 0)).2 in
  let run := SysTimer_SetHartCompareValue sample_rv32 0x200000010 2 in
  Forall (fun m => 0x1F0000000 < compare_reg sample_rv32 2 m) (states_of run s)
  /\ compare_reg sample_rv32 2 (dev (run s).2) = 0x200000010.
Proof.
  apply (SysTimer_SetHartCompareValue_never_below sample_rv32
           (SysTimer_SetHartCompareValue sample_rv32 0x1FFFFFFFF 2
              (boot 0 [] 0)).2 0x200000010 2 0x1F0000000).
  - reflexivity.
  - right. vm_compute. discriminate.
  - vm_compute. split; discriminate || reflexivity.
  - vm_compute. split; discriminate || reflexivity.
  - lia.
  - vm_compute. reflexivity.
  - lia.
Defined.

(** ** System tick: SysTick_Config, SysTick_Reload and their hart variants *)

Section Static.

Variable soc : SoC.

(** With the counter standing still, the read returns its value and leaves
    the device as it is. *)
Lemma SysTimer_GetLoadValue_static m hid lg :
  0 <= mtimer m < B64 ->
  exists lg',
    SysTimer_GetLoadValue soc (Hw m [] hid lg) = (mtimer m, Hw m [] hid lg').
Proof.
  intros Hc. unfold SysTimer_GetLoadValue.
  destruct (__RISCV_XLEN soc =? 32).
  - cbv beta iota zeta delta [bind ret].
    do 3 (rewrite __LW_run; cbv beta iota zeta).
    simpl advanced. simpl tail. rewrite !read32_hi, !read32_lo.
    rewrite Z.eqb_refl. cbv beta iota zeta delta [negb].
    rewrite join64_add by apply lo32_range.
    rewrite halves_join by assumption. eauto.
  - rewrite __LD_run. cbv beta iota zeta. simpl advanced. simpl tail.
    unfold read64. rewrite read32_hi, read32_lo.
    rewrite halves_join by assumption. eauto.
Qed.

Lemma SysTimer_SetLoadValue_static value m hid lg :
  0 <= value < B64 -> 0 <= mtimer m < B64 ->
  exists m' lg',
    SysTimer_SetLoadValue soc value (Hw m [] hid lg) = (tt, Hw m' [] hid lg')
    /\ mtimer m' = value.
Proof.
  intros Hv Hc. unfold SysTimer_SetLoadValue.
  destruct (zero_low_first_arith (mtimer m) value Hc Hv) as (A1 & A2 & A3 & A4).
  destruct (__RISCV_XLEN soc =? 32).
  - cbv beta iota zeta delta [bind].
    do 3 (rewrite __SW_run; cbv beta iota zeta).
    simpl advanced. simpl tail.
    rewrite !uint32_idem. change (uint32 0) with 0.
    change (uint32 (Z.shiftr value 32)) with (hi32 value).
    change (uint32 value) with (lo32 value).
    rewrite !write32_lo, !write32_hi. cbn [mtimer regs].
    do 2 eexists. split; [reflexivity |]. cbn [mtimer].
    rewrite A2. exact A4.
  - rewrite __SD_run. cbv beta iota zeta. simpl advanced. simpl tail.
    unfold write64. rewrite write32_lo, write32_hi. cbn [mtimer regs].
    do 2 eexists. split; [reflexivity |]. cbn [mtimer].
    rewrite uint64_small by assumption.
    pose proof (halves_join value Hv) as Hj.
    pose proof (lo32_range value) as Hl.
    assert (lo32 (hi32 (mtimer m) * B32 + lo32 value) = lo32 value) as ->.
    { unfold lo32 at 1. unfold uint32.
      rewrite Z.add_comm, Z.mod_add by lia. now apply Z.mod_small. }
    exact Hj.
Qed.

Lemma SysTimer_SetHartCompareValue_static value h m hid lg :
  apart_from_counter soc (compare_addr soc h) ->
  0 <= value < B64 ->
  exists m' lg',
    SysTimer_SetHartCompareValue soc value h (Hw m [] hid lg)
      = (tt, Hw m' [] hid lg')
    /\ mtimer m' = mtimer m
    /\ compare_reg soc h m' = value.
Proof.
  intros Ha Hv. unfold compare_reg.
  pose proof (halves_join value Hv) as Hj.
  unfold SysTimer_SetHartCompareValue.
  assert (Ea : compare_addr soc h
               = if h =? 0 then MTIMERCMP_addr soc
                 else per_hart_addr soc PH_MTIMECMP h) by reflexivity.
  set (a := compare_addr soc h) in *.
  destruct (h =? 0), (__RISCV_XLEN soc =? 32);
    cbv beta iota zeta delta [bind];
    rewrite ?resolve_MTIMECMP_run; cbv beta iota zeta;
    rewrite <- Ea; clear Ea;
    repeat (rewrite __SW_run; cbv beta iota zeta);
    rewrite ?__SD_run; cbv beta iota zeta;
    simpl advanced; simpl tail;
    rewrite ?uint32_idem, ?uint64_small by assumption;
    change (uint32 (Z.shiftr value 32)) with (hi32 value);
    change (uint32 value) with (lo32 value);
    (do 2 eexists; split; [reflexivity |]);
    unfold write64, read64;
    (split; [rewrite !mtimer_write32 by addr; reflexivity |]);
    simpl_reads; exact Hj.
Qed.

Lemma SysTimer_SetCompareValue_static value m hid lg :
  apart_from_counter soc (compare_addr soc hid) ->
  0 <= value < B64 ->
  exists m' lg',
    SysTimer_SetCompareValue soc value (Hw m [] hid lg)
      = (tt, Hw m' [] hid lg')
    /\ mtimer m' = mtimer m
    /\ compare_reg soc hid m' = value.
Proof. apply SysTimer_SetHartCompareValue_static. Qed.

End Static.

Section Tick.

Variable soc : SoC.

(** What the two reload functions do, by the test the code makes. *)
Lemma SysTick_HartReload_static ticks h m hid lg :
  apart_from_counter soc (compare_addr soc h) ->
  0 <= mtimer m < B64 -> 0 <= ticks < B64 ->
  exists s',
    SysTick_HartReload soc ticks h (Hw m [] hid lg) = (0, s')
    /\ if uint64 (ticks + mtimer m) >? mtimer m
       then tick_outcome soc h s' (mtimer m) (uint64 (ticks + mtimer m))
       else tick_outcome soc h s' 0 ticks.
Proof.
  intros Ha Hc Ht. unfold SysTick_HartReload.
  cbv beta iota zeta delta [bind].
  destruct (SysTimer_GetLoadValue_static soc m hid lg Hc) as [lg1 ->].
  cbv beta iota zeta.
  destruct (uint64 (ticks + mtimer m) >? mtimer m).
  - destruct (SysTimer_SetHartCompareValue_static soc
                (uint64 (ticks + mtimer m)) h m hid lg1 Ha (uint64_range _))
      as (m' & lg' & -> & Hm & Hr).
    eexists. split; [reflexivity |]. now split.
  - destruct (SysTimer_SetLoadValue_static soc 0 m hid lg1 ltac:(lia) Hc)
      as (m1 & lg2 & -> & Hm1).
    cbv beta iota zeta.
    destruct (SysTimer_SetHartCompareValue_static soc ticks h m1 hid lg2 Ha Ht)
      as (m' & lg' & -> & Hm & Hr).
    eexists. split; [reflexivity |]. split; [simpl; congruence | exact Hr].
Qed.

Lemma SysTick_Reload_static ticks m hid lg :
  apart_from_counter soc (compare_addr soc hid) ->
  0 <= mtimer m < B64 -> 0 <= ticks < B64 ->
  exists s',
    SysTick_Reload soc ticks (Hw m [] hid lg) = (0, s')
    /\ if uint64 (ticks + mtimer m) >? mtimer m
       then tick_outcome soc hid s' (mtimer m) (uint64 (ticks + mtimer m))
       else tick_outcome soc hid s' 0 ticks.
Proof.
  intros Ha Hc Ht. unfold SysTick_Reload.
  cbv beta iota zeta delta [bind].
  destruct (SysTimer_GetLoadValue_static soc m hid lg Hc) as [lg1 ->].
  cbv beta iota zeta.
  destruct (uint64 (ticks + mtimer m) >? mtimer m).
  - destruct (SysTimer_SetCompareValue_static soc
                (uint64 (ticks + mtimer m)) m hid lg1 Ha (uint64_range _))
      as (m' & lg' & -> & Hm & Hr).
    eexists. split; [reflexivity |]. now split.
  - destruct (SysTimer_SetLoadValue_static soc 0 m hid lg1 ltac:(lia) Hc)
      as (m1 & lg2 & -> & Hm1).
    cbv beta iota zeta.
    destruct (SysTimer_SetCompareValue_static soc ticks m1 hid lg2 Ha Ht)
      as (m' & lg' & -> & Hm & Hr).
    eexists. split; [reflexivity |]. split; [simpl; congruence | exact Hr].
Qed.

(** The two configuration functions make no test. *)
Lemma SysTick_HartConfig_static ticks h m hid lg :
  apart_from_counter soc (compare_addr soc h) ->
  0 <= mtimer m < B64 ->
  exists s',
    SysTick_HartConfig soc ticks h (Hw m [] hid lg) = (0, s')
    /\ tick_outcome soc h s' (mtimer m) (uint64 (ticks + mtimer m)).
Proof.
  intros Ha Hc. unfold SysTick_HartConfig.
  cbv beta iota zeta delta [bind].
  destruct (SysTimer_GetLoadValue_static soc m hid lg Hc) as [lg1 ->].
  cbv beta iota zeta.
  destruct (SysTimer_SetHartCompareValue_static soc
              (uint64 (ticks + mtimer m)) h m hid lg1 Ha (uint64_range _))
    as (m' & lg' & -> & Hm & Hr).
  eexists. split; [reflexivity |]. now split.
Qed.

Lemma SysTick_Config_static ticks m hid lg :
  apart_from_counter soc (compare_addr soc hid) ->
  0 <= mtimer m < B64 ->
  exists s',
    SysTick_Config soc ticks (Hw m [] hid lg) = (0, s')
    /\ tick_outcome soc hid s' (mtimer m) (uint64 (ticks + mtimer m)).
Proof.
  intros Ha Hc. unfold SysTick_Config.
  cbv beta iota zeta delta [bind].
  destruct (SysTimer_GetLoadValue_static soc m hid lg Hc) as [lg1 ->].
  cbv beta iota zeta.
  destruct (SysTimer_SetCompareValue_static soc
              (uint64 (ticks + mtimer m)) m hid lg1 Ha (uint64_range _))
    as (m' & lg' & -> & Hm & Hr).
  eexists. split; [reflexivity |]. now split.
Qed.

(** The test [reload_ticks > cur_ticks] holds exactly when the sum does not
    wrap and [ticks] is not 0. *)
Lemma reload_test_true ticks c :
  0 <= c < B64 -> 0 <= ticks < B64 ->
  0 < ticks -> ticks + c < B64 ->
  (uint64 (ticks + c) >? c) = true /\ uint64 (ticks + c) = ticks + c.
Proof.
  intros Hc Ht Hpos Hfit. rewrite uint64_small by lia. split; [lia | easy].
Qed.

Lemma reload_test_false ticks c :
  0 <= c < B64 -> 0 <= ticks < B64 ->
  ticks = 0 \/ B64 <= ticks + c ->
  (uint64 (ticks + c) >? c) = false.
Proof.
  intros Hc Ht [-> | Hwrap].
  - rewrite uint64_small by lia. lia.
  - assert (uint64 (ticks + c) = ticks + c - B64) as ->; [| lia].
    unfold uint64. symmetry. apply Z.mod_unique with 1; lia.
Qed.

End Tick.

(** C3 (as amended).  With the counter at [counter] and standing still:
    [SysTick_Reload] and [SysTick_HartReload] test [reload_ticks > cur_ticks]
    strictly.  When [ticks + counter] does not wrap and [ticks] is not 0 they
    set the compare register to exactly [ticks + counter] and leave the
    counter as it is; when the sum wraps, or when [ticks] is 0, they reset
    the counter to 0 and set the compare register to exactly [ticks].
    [SysTick_Config] and [SysTick_HartConfig] set the compare register to
    exactly [ticks + counter] and leave the counter as it is whenever the sum
    does not wrap. *)
Theorem SysTick_overflow_policy soc s ticks hartid :
  pending s = [] ->
  0 <= mtimer (dev s) < B64 ->
  0 <= ticks < B64 ->
  apart_from_counter soc (compare_addr soc (mhartid s)) ->
  apart_from_counter soc (compare_addr soc hartid) ->
  let counter := mtimer (dev s) in
  let own := mhartid s in
  (0 < ticks -> ticks + counter < B64 ->
     tick_outcome soc own (SysTick_Reload soc ticks s).2
                  counter (ticks + counter)
     /\ tick_outcome soc hartid (SysTick_HartReload soc ticks hartid s).2
                     counter (ticks + counter))
  /\ (ticks = 0 \/ B64 <= ticks + counter ->
     tick_outcome soc own (SysTick_Reload soc ticks s).2 0 ticks
     /\ tick_outcome soc hartid (SysTick_HartReload soc ticks hartid s).2
                     0 ticks)
  /\ (ticks + counter < B64 ->
     tick_outcome soc own (SysTick_Config soc ticks s).2
                  counter (ticks + counter)
     /\ tick_outcome soc hartid (SysTick_HartConfig soc ticks hartid s).2
                     counter (ticks + counter)).
Proof.
  destruct s as [m ds hid lg]. simpl.
  intros -> Hc Ht Hown Hh.
  destruct (SysTick_Reload_static soc ticks m hid lg Hown Hc Ht)
    as (s1 & -> & R1).
  destruct (SysTick_HartReload_static soc ticks hartid m hid lg Hh Hc Ht)
    as (s2 & -> & R2).
  destruct (SysTick_Config_static soc ticks m hid lg Hown Hc)
    as (s3 & -> & R3).
  destruct (SysTick_HartConfig_static soc ticks hartid m hid lg Hh Hc)
    as (s4 & -> & R4).
  cbn [snd]. split; [| split].
  - intros Hpos Hfit.
    destruct (reload_test_true ticks (mtimer m) Hc Ht Hpos Hfit) as [E1 E2].
    rewrite E1, E2 in R1, R2. now split.
  - intros Hcase.
    rewrite (reload_test_false ticks (mtimer m) Hc Ht Hcase) in R1, R2.
    now split.
  - intros Hfit. rewrite uint64_small in R3, R4 by lia. now split.
Qed.

Lemma SysTick_overflow_policy_at_sample :
  let s := boot 5 [] 0 in
  tick_outcome sample_rv32 0 (SysTick_Reload sample_rv32 100 s).2 5 105
  /\ tick_outcome sample_rv32 0
       (SysTick_Reload sample_rv32 0xFFFFFFFFFFFFFFFF s).2
       0 0xFFFFFFFFFFFFFFFF
  /\ tick_outcome sample_rv32 3 (SysTick_HartConfig sample_rv32 100 3 s).2
       5 105.
Proof.
  cbv zeta. split; [| split].
  - apply (SysTick_overflow_policy sample_rv32 (boot 5 [] 0) 100 3);
      try reflexivity; try (simpl; lia);
      try (right; vm_compute; discriminate).
  - apply (SysTick_overflow_policy sample_rv32 (boot 5 [] 0)
             0xFFFFFFFFFFFFFFFF 3);
      try reflexivity; try (simpl; lia);
      try (right; vm_compute; discriminate).
  - apply (SysTick_overflow_policy sample_rv32 (boot 5 [] 0) 100 3);
      try reflexivity; try (simpl; lia);
      try (right; vm_compute; discriminate).
Defined.

(** C3 as stated fails.  [SysTick_Reload 0] with the counter at 5: the sum
    does not wrap, yet the counter is reset and the compare register is set
    to 0, since the test is strict.  [SysTick_Config] with the counter at 5
    and [ticks] = 2^64 - 1: the sum wraps, yet the counter stays at 5 and the
    compare register is set to the wrapped sum 4. *)
Lemma SysTick_plain_overflow_policy_fails :
  let s := boot 5 [] 0 in
  (tick_outcome sample_rv32 0 (SysTick_Reload sample_rv32 0 s).2 0 0
   /\ ~ plain_overflow_policy sample_rv32 (SysTick_Reload sample_rv32 0) 0 0 s)
  /\ (tick_outcome sample_rv32 0
        (SysTick_Config sample_rv32 0xFFFFFFFFFFFFFFFF s).2 5 4
      /\ ~ plain_overflow_policy sample_rv32
             (SysTick_Config sample_rv32 0xFFFFFFFFFFFFFFFF)
             0 0xFFFFFFFFFFFFFFFF s).
Proof.
  cbv zeta. unfold plain_overflow_policy, tick_outcome.
  split; (split; [vm_compute; split; reflexivity |]);
    vm_compute; intros [H _]; discriminate H.
Qed.

(** ** Per-hart addressing *)

(** Unfolding a run into its bus accesses. *)
Ltac run_steps :=
  repeat progress
    (cbv beta iota zeta delta [bind ret];
     rewrite ?__SW_run, ?__LW_run, ?__LD_run, ?__SD_run,
       ?resolve_MSIP_run, ?resolve_MTIMECMP_run).
Ltac finish_log :=
  cbn [fst snd]; rewrite <- ?app_assoc, ?new_log_app.

(** C4.  [SysTimer_SendIPI] and [SysTimer_ClearIPI] resolve the per-hart
    address [base + hartid * stride] and store to it for every hart, hart 0
    included.  The MSIP accessors and the compare accessors do not resolve
    any address for hart 0 and access the fixed registers [SysTimer->MSIP]
    and [SysTimer->MTIMERCMP]; for every other hart they resolve
    [base + hartid * stride] of their register and access that address: the
    MSIP accessors the very address [SysTimer_SendIPI] and
    [SysTimer_ClearIPI] store to. *)
Theorem per_hart_addressing soc s hartid msip value :
  let msip_at := CLINT_MSIP_base soc + hartid * CLINT_MSIP_stride soc in
  let cmp_at := CLINT_MTIMECMP_base soc + hartid * CLINT_MTIMECMP_stride soc in
  let rv32 := __RISCV_XLEN soc =? 32 in
  footprint (SysTimer_SendIPI soc hartid) s
    = [Resolved PH_MSIP hartid; Write 32 msip_at]
  /\ footprint (SysTimer_ClearIPI soc hartid) s
    = [Resolved PH_MSIP hartid; Write 32 msip_at]
  /\ footprint (SysTimer_SetHartSWIRQ soc hartid) s
    = (if hartid =? 0
       then [Read 32 (MSIP_addr soc); Write 32 (MSIP_addr soc)]
       else [Resolved PH_MSIP hartid; Write 32 msip_at])
  /\ footprint (SysTimer_ClearHartSWIRQ soc hartid) s
    = (if hartid =? 0
       then [Read 32 (MSIP_addr soc); Write 32 (MSIP_addr soc)]
       else [Resolved PH_MSIP hartid; Write 32 msip_at])
  /\ footprint (SysTimer_GetHartMsipValue soc hartid) s
    = (if hartid =? 0
       then [Read 32 (MSIP_addr soc)]
       else [Resolved PH_MSIP hartid; Read 32 msip_at])
  /\ footprint (SysTimer_SetHartMsipValue soc msip hartid) s
    = (if hartid =? 0
       then [Write 32 (MSIP_addr soc)]
       else [Resolved PH_MSIP hartid; Write 32 msip_at])
  /\ footprint (SysTimer_SetHartCompareValue soc value hartid) s
    = (if hartid =? 0
       then (let a := MTIMERCMP_addr soc in
             if rv32 then [Write 32 a; Write 32 (a + 4); Write 32 a]
             else [Write 64 a])
       else Resolved PH_MTIMECMP hartid
            :: (if rv32
                then [Write 32 cmp_at; Write 32 (cmp_at + 4); Write 32 cmp_at]
                else [Write 64 cmp_at]))
  /\ footprint (SysTimer_GetHartCompareValue soc hartid) s
    = (if hartid =? 0
       then [Read 64 (MTIMERCMP_addr soc)]
       else Resolved PH_MTIMECMP hartid
            :: (if rv32 then [Read 32 (cmp_at + 4); Read 32 cmp_at]
                else [Read 64 cmp_at])).
Proof.
  intros msip_at cmp_at rv32. subst msip_at cmp_at rv32.
  destruct s as [m ds hid lg].
  unfold footprint, events_of.
  unfold SysTimer_SendIPI, SysTimer_ClearIPI, SysTimer_SetHartSWIRQ,
    SysTimer_ClearHartSWIRQ, SysTimer_GetHartMsipValue,
    SysTimer_SetHartMsipValue, SysTimer_SetHartCompareValue,
    SysTimer_GetHartCompareValue.
  destruct (hartid =? 0), (__RISCV_XLEN soc =? 32);
    run_steps; finish_log; repeat split; reflexivity.
Qed.

(** ** Control register *)

Lemma uint32_land_ones x : uint32 x = Z.land x (Z.ones 32).
Proof. unfold uint32. now rewrite Z.land_ones by lia. Qed.

Lemma uint32_land v msk : 0 <= v < B32 -> uint32 (Z.land v msk) = Z.land v msk.
Proof.
  intros Hv. rewrite uint32_land_ones.
  rewrite <- Z.land_assoc, (Z.land_comm msk), Z.land_assoc.
  now rewrite <- uint32_land_ones, uint32_small.
Qed.

(** C8.  For every 32-bit [v], after [SysTimer_SetControlValue v] the control
    register holds [v & SysTimer_MTIMECTL_Msk] and [SysTimer_GetControlValue]
    returns exactly that; the mask is made of the TIMESTOP, CMPCLREN and
    CLKSRC bits, so a bit that is in none of the three masks is stored as 0
    and read back as 0 whatever [v] is. *)
Theorem SysTimer_control_round_trip soc s v :
  not_counter_word soc (MTIMECTL_addr soc) ->
  0 <= v < B32 ->
  let Msk := SysTimer_MTIMECTL_Msk soc in
  let s1 := (SysTimer_SetControlValue soc v s).2 in
  let stored := read32 soc (dev s1) (MTIMECTL_addr soc) in
  let got := (SysTimer_GetControlValue soc s1).1 in
  events_of (SysTimer_SetControlValue soc v) s
    = [EvStore 32 (MTIMECTL_addr soc) (Z.land v Msk)]
  /\ stored = Z.land v Msk
  /\ got = Z.land v Msk
  /\ forall i, 0 <= i ->
       Z.testbit (SysTimer_MTIMECTL_TIMESTOP_Msk soc) i = false ->
       Z.testbit (SysTimer_MTIMECTL_CMPCLREN_Msk soc) i = false ->
       Z.testbit (SysTimer_MTIMECTL_CLKSRC_Msk soc) i = false ->
       Z.testbit stored i = false /\ Z.testbit got i = false.
Proof.
  intros Ha Hv Msk s1 stored got.
  destruct s as [m ds hid lg].
  assert (Es : stored = Z.land v Msk).
  { subst stored s1. unfold SysTimer_SetControlValue.
    rewrite __SW_run. cbv beta iota zeta. cbn [snd dev].
    rewrite read32_write32_same by assumption.
    now apply uint32_land. }
  assert (Eg : got = Z.land v Msk).
  { subst got s1. unfold SysTimer_SetControlValue, SysTimer_GetControlValue.
    rewrite __SW_run. cbv beta iota zeta. cbn [snd]. run_steps. cbn [fst].
    rewrite read32_advanced, read32_write32_same by assumption.
    fold Msk. rewrite (uint32_land v Msk Hv).
    rewrite <- Z.land_assoc, Z.land_diag. now apply uint32_land. }
  split; [| split; [exact Es | split; [exact Eg |]]].
  - unfold events_of, SysTimer_SetControlValue.
    rewrite __SW_run. cbv beta iota zeta. finish_log.
    fold Msk. now rewrite (uint32_land v Msk Hv).
  - intros i Hi T C K. rewrite Es, Eg.
    assert (Z.testbit (Z.land v Msk) i = false); [| easy].
    subst Msk. unfold SysTimer_MTIMECTL_Msk.
    rewrite Z.land_spec, !Z.lor_spec, T, C, K. apply andb_false_r.
Qed.

Lemma SysTimer_control_round_trip_at_sample :
  let s1 := (SysTimer_SetControlValue sample_rv32 0xFFFFFFFF
               (boot 0 [] 0)).2 in
  (SysTimer_GetControlValue sample_rv32 s1).1 = 7.
Proof.
  cbv zeta.
  destruct (SysTimer_control_round_trip sample_rv32 (boot 0 [] 0) 0xFFFFFFFF)
    as (_ & _ & Hgot & _).
  - split; discriminate.
  - lia.
  - exact Hgot.
Defined.

(** ** Return values *)

(** C10.  [IRQC_Register_IRQ] returns 0 for every interrupt number and every
    handler: an interrupt number at or above [SOC_INT_MAX] changes nothing,
    and for a NULL handler the interrupt is enabled all the same, only
    without a vector being installed.  [SysTick_Reload] and
    [SysTick_HartReload] return 0 on both of their paths.  None of them ever
    returns -1. *)
Theorem registration_and_reload_return_0 soc s IRQn handler ticks hartid :
  (IRQC_Register_IRQ soc IRQn handler s).1 = 0
  /\ events_of (IRQC_Register_IRQ soc IRQn handler) s
     = (if handler =? 0 then []
        else [EvCall X_IRQC_SetVector [IRQn; handler]])
       ++ [EvCall X_IRQC_EnableIRQ [IRQn]]
  /\ (SysTick_Reload soc ticks s).1 = 0
  /\ (SysTick_HartReload soc ticks hartid s).1 = 0
  /\ (IRQC_Register_IRQ soc IRQn handler s).1 <> -1
  /\ (SysTick_Reload soc ticks s).1 <> -1
  /\ (SysTick_HartReload soc ticks hartid s).1 <> -1.
Proof.
  assert (R1 : (IRQC_Register_IRQ soc IRQn handler s).1 = 0).
  { unfold IRQC_Register_IRQ. cbv beta iota zeta delta [bind ret].
    destruct (IRQn >=? SOC_INT_MAX soc), (handler =? 0); reflexivity. }
  assert (R2 : (SysTick_Reload soc ticks s).1 = 0).
  { unfold SysTick_Reload. cbv beta iota zeta delta [bind ret].
    destruct (SysTimer_GetLoadValue soc s) as [cur s1].
    destruct (uint64 (ticks + cur) >? cur).
    - now destruct (SysTimer_SetCompareValue soc _ s1).
    - destruct (SysTimer_SetLoadValue soc 0 s1) as [[] s2].
      now destruct (SysTimer_SetCompareValue soc ticks s2). }
  assert (R3 : (SysTick_HartReload soc ticks hartid s).1 = 0).
  { unfold SysTick_HartReload. cbv beta iota zeta delta [bind ret].
    destruct (SysTimer_GetLoadValue soc s) as [cur s1].
    destruct (uint64 (ticks + cur) >? cur).
    - now destruct (SysTimer_SetHartCompareValue soc _ hartid s1).
    - destruct (SysTimer_SetLoadValue soc 0 s1) as [[] s2].
      now destruct (SysTimer_SetHartCompareValue soc ticks hartid s2). }
  rewrite R1, R2, R3. repeat split; try easy.
  destruct s as [m ds hid lg].
  unfold events_of, IRQC_Register_IRQ, IRQC_SetVector, IRQC_EnableIRQ.
  destruct (IRQn >=? SOC_INT_MAX soc), (handler =? 0);
    cbv beta iota zeta delta [bind ret emit negb]; cbn [fst snd dev pending mhartid log];
    finish_log; reflexivity.
Qed.

(** ** Exception handler table *)

Section Exceptions.

Variable soc : SoC.

(** Invariant of the initialisation loop: after [n] rounds the first [n]
    entries hold the default handler and the others are as before. *)
Lemma Exception_Init_loop (d : Z) (n : nat) (tbl : list Z) :
  (n <= length tbl)%nat ->
  fold_left (fun t (i : nat) => <[i := d]> t) (seq 0 n) tbl
  = replicate n d ++ drop n tbl.
Proof.
  induction n as [| n IH]; intros Hn.
  - reflexivity.
  - rewrite seq_S, fold_left_app, IH by lia.
    change (fold_left _ [(0 + n)%nat] ?t) with (<[n := d]> t).
    destruct (lookup_lt_is_Some_2 tbl n) as [x Hx]; [lia |].
    rewrite (drop_S _ _ _ Hx).
    rewrite insert_app_r_alt by (rewrite length_replicate; lia).
    rewrite length_replicate, Nat.sub_diag.
    change (<[0%nat := d]> (x :: drop (S n) tbl)) with (d :: drop (S n) tbl).
    now rewrite replicate_S_end, <- app_assoc.
Qed.

Lemma Exception_Init_all tbl :
  table_ok tbl ->
  Exception_Init soc tbl
  = replicate (Z.to_nat MAX_SYSTEM_EXCEPTION_NUM)
              (system_default_exception_handler soc).
Proof.
  intros Hok. unfold Exception_Init.
  rewrite Exception_Init_loop by (rewrite Hok; lia).
  rewrite drop_ge by (rewrite Hok; lia). apply app_nil_r.
Qed.

End Exceptions.

(** C5.  After [Exception_Init], [Exception_Get_EXC] returns the default
    handler for every code from 0 to 11; after [Exception_Register_EXC code h]
    with [code] below 12, [Exception_Get_EXC code] returns [h]; and
    [Exception_Register_EXC] with a code of 12 or more leaves the table as it
    is. *)
Theorem exception_table_init_register_get soc tbl :
  table_ok tbl ->
  (forall code, 0 <= code < MAX_SYSTEM_EXCEPTION_NUM ->
     Exception_Get_EXC code (Exception_Init soc tbl)
     = Some (system_default_exception_handler soc))
  /\ (forall code h, 0 <= code < MAX_SYSTEM_EXCEPTION_NUM ->
     Exception_Get_EXC code (Exception_Register_EXC code h tbl) = Some h)
  /\ (forall code h, MAX_SYSTEM_EXCEPTION_NUM <= code ->
     Exception_Register_EXC code h tbl = tbl).
Proof.
  intros Hok. unfold table_ok in Hok.
  unfold Exception_Get_EXC, Exception_Register_EXC, MAX_SYSTEM_EXCEPTION_NUM in *.
  split; [| split].
  - intros code Hc. rewrite Exception_Init_all by exact Hok.
    destruct (Z.ltb_spec code 12); [| lia].
    f_equal. apply lookup_total_replicate_2.
    unfold MAX_SYSTEM_EXCEPTION_NUM. lia.
  - intros code h Hc.
    destruct (Z.ltb_spec code 12); [| lia].
    f_equal. apply list_lookup_total_insert_eq. lia.
  - intros code h Hc.
    destruct (Z.ltb_spec code 12); [lia | reflexivity].
Qed.

Lemma exception_table_init_register_get_at_sample :
  Exception_Get_EXC 11 (Exception_Init sample_rv32 (replicate 12 0))
    = Some 0x80001000
  /\ Exception_Get_EXC 2
       (Exception_Register_EXC 2 0x80002000 (replicate 12 0))
     = Some 0x80002000
  /\ Exception_Register_EXC 12 0x80002000 (replicate 12 0) = replicate 12 0.
Proof.
  destruct (exception_table_init_register_get sample_rv32 (replicate 12 0))
    as (Hinit & Hreg & Hout).
  - reflexivity.
  - split; [apply (Hinit 11); unfold MAX_SYSTEM_EXCEPTION_NUM; lia |].
    split; [apply (Hreg 2); unfold MAX_SYSTEM_EXCEPTION_NUM; lia |].
    apply (Hout 12). unfold MAX_SYSTEM_EXCEPTION_NUM. lia.
Defined.

(** C7.  [Exception_Get_EXC] returns a value exactly when [EXCn] is below
    [MAX_SYSTEM_EXCEPTION_NUM], and then it is the entry of the table; for
    every [EXCn] of 12 or more, and for these only, control reaches the end
    of the function without a [return]. *)
Theorem Exception_Get_EXC_returns_iff_in_range tbl EXCn :
  (EXCn < MAX_SYSTEM_EXCEPTION_NUM <-> is_Some (Exception_Get_EXC EXCn tbl))
  /\ (MAX_SYSTEM_EXCEPTION_NUM <= EXCn <-> Exception_Get_EXC EXCn tbl = None)
  /\ (EXCn < MAX_SYSTEM_EXCEPTION_NUM ->
      Exception_Get_EXC EXCn tbl = Some (tbl !!! Z.to_nat EXCn)).
Proof.
  unfold Exception_Get_EXC.
  destruct (Z.ltb_spec EXCn MAX_SYSTEM_EXCEPTION_NUM) as [Hlt | Hge].
  - repeat split; intros; try easy; try lia; eauto.
  - repeat split; intros; try easy; try lia;
      try match goal with
          | H : is_Some None |- _ => destruct H; discriminate
          end.
Qed.

(** ** Exception dispatch *)

Lemma low_12_bits mcause : uint32 (Z.land mcause 0xfff) = mcause mod 4096.
Proof.
  change 0xfff with (Z.ones 12). rewrite Z.land_ones by lia.
  change (2 ^ 12) with 4096. apply uint32_small.
  pose proof (Z.mod_pos_bound mcause 4096). lia.
Qed.

(** C6 (as amended).  For every [mcause] and [sp], [core_exception_handler]
    takes the low 12 bits of [mcause] as the exception code, selects the
    entry of the table when the code is from 0 to 11 and the default handler
    otherwise, and invokes the selected handler with [(mcause, sp)] unless
    the selected handler reference is NULL, in which case it invokes
    nothing. *)
Theorem core_exception_handler_dispatch soc mcause sp tbl :
  let code := mcause mod 4096 in
  let selected := selected_handler soc mcause tbl in
  (selected = if code <? 12 then tbl !!! Z.to_nat code
              else system_default_exception_handler soc)
  /\ core_exception_handler soc mcause sp tbl
     = (if selected =? 0 then [] else [Invoke selected mcause sp], 0).
Proof.
  intros code selected. subst code selected.
  unfold selected_handler, core_exception_handler, Exception_Get_EXC.
  rewrite low_12_bits. unfold MAX_SYSTEM_EXCEPTION_NUM.
  destruct (mcause mod 4096 <? 12); simpl default; (split; [reflexivity |]);
    match goal with |- context [negb (?h =? 0)] => destruct (h =? 0) end;
    reflexivity.
Qed.

(** C6 as stated fails: with a NULL handler registered for code 3, a trap
    with [mcause] = 3 invokes no handler at all. *)
Lemma core_exception_handler_null_not_invoked :
  let tbl := Exception_Register_EXC 3 0
               (Exception_Init sample_rv32 (replicate 12 0)) in
  table_ok tbl
  /\ (core_exception_handler sample_rv32 3 0x20000 tbl).1 = []
  /\ ~ plain_dispatch sample_rv32 3 0x20000 tbl.
Proof.
  cbv zeta. split; [reflexivity |]. split; [reflexivity |].
  unfold plain_dispatch. vm_compute. discriminate.
Qed.

(** * Further properties of the driver *)

(** ** Reading the counter *)

Lemma window_arith T0 T1 T2 T3 :
  0 <= T0 -> T0 <= T1 <= T2 -> T2 <= T3 -> T3 < B64 ->
  (hi32 T0 = hi32 T2 -> T0 <= hi32 T2 * B32 + lo32 T1 <= T2) /\
  (hi32 T0 <> hi32 T2 -> T0 <= hi32 T2 * B32 + lo32 T3 <= T3).
Proof.
  rewrite !hi32_div. unfold lo32, uint32.
  intros H0 H1 H2 H3. Z.div_mod_to_equations. lia.
Qed.

(** X1.  On a 32-bit core, whatever the number of carries: if the counter
    only moves forward and does not wrap around 2^64 while it is read, the
    value [SysTimer_GetLoadValue] returns lies between the value the counter
    had at the first load and the value it has at the last load. *)
Theorem SysTimer_GetLoadValue_within_window soc s :
  __RISCV_XLEN soc = 32 ->
  0 <= mtimer (dev s) ->
  Forall (fun d => 0 <= d) (pending s) ->
  ideal_counter 3 s < B64 ->
  let '(r, s') := SysTimer_GetLoadValue soc s in
  mtimer (advanced (dev s) (pending s)) <= r <= mtimer (dev s').
Proof.
  intros HX Hc Hd Hfit.
  destruct s as [[c rg] ds hid lg]. simpl in Hc, Hd.
  destruct (ideal_counter_unfold c rg ds hid lg) as [_ E3].
  rewrite E3 in Hfit. clear E3.
  unfold SysTimer_GetLoadValue. rewrite HX, Z.eqb_refl.
  cbv beta iota zeta delta [bind ret].
  do 3 (rewrite __LW_run; cbv beta iota zeta).
  cbn [dev pending].
  set (m0 := advanced (Mmio c rg) ds).
  set (m1 := advanced m0 (tail ds)).
  set (m2 := advanced m1 (tail (tail ds))).
  rewrite !read32_hi, !read32_lo.
  pose proof (nth_0_nonneg _ Hd) as N0.
  pose proof (Forall_tail_nonneg _ Hd) as Hd1.
  pose proof (nth_0_nonneg _ Hd1) as N1.
  pose proof (Forall_tail_nonneg _ Hd1) as Hd2.
  pose proof (nth_0_nonneg _ Hd2) as N2.
  pose proof (nth_0_nonneg _ (Forall_tail_nonneg _ Hd2)) as N3.
  assert (C0 : mtimer m0 = uint64 (c + nth 0 ds 0)).
  { apply advanced_counter. simpl. unfold uint64. rewrite Z.mod_small; lia. }
  pose proof (advanced_counter m0 (tail ds) _ C0) as C1. fold m1 in C1.
  pose proof (advanced_counter m1 (tail (tail ds)) _ C1) as C2. fold m2 in C2.
  pose proof (advanced_counter m2 (tail (tail (tail ds))) _ C2) as C3.
  set (T0 := c + nth 0 ds 0) in *.
  set (T1 := T0 + nth 0 (tail ds) 0) in *.
  set (T2 := T1 + nth 0 (tail (tail ds)) 0) in *.
  set (T3 := T2 + nth 0 (tail (tail (tail ds))) 0) in *.
  rewrite uint64_small in C0, C1, C2, C3 by lia.
  destruct (window_arith T0 T1 T2 T3) as [Same Diff]; try lia.
  rewrite <- C0, <- C1, <- C2 in Same.
  rewrite <- C0, <- C2, <- C3 in Diff.
  destruct (Z.eqb_spec (hi32 (mtimer m0)) (hi32 (mtimer m2))) as [Heq | Hne];
    cbv beta iota zeta delta [negb].
  - cbn [dev]. rewrite join64_add by apply lo32_range. auto.
  - rewrite __LW_run. cbv beta iota zeta. rewrite read32_lo. cbn [dev].
    rewrite join64_add by apply lo32_range. auto.
Qed.

(** Two carries: the value returned is torn, and yet inside the window. *)
Lemma SysTimer_GetLoadValue_within_window_two_carries :
  let s := boot 0xFFFFFFFE [0; 1; 1; 0x100000005] 0 in
  0xFFFFFFFE <= (SysTimer_GetLoadValue sample_rv32 s).1 <= 0x200000005.
Proof.
  cbv zeta.
  pose proof (SysTimer_GetLoadValue_within_window sample_rv32
                (boot 0xFFFFFFFE [0; 1; 1; 0x100000005] 0)) as H.
  destruct (SysTimer_GetLoadValue sample_rv32
              (boot 0xFFFFFFFE [0; 1; 1; 0x100000005] 0)) as [r s'] eqn:E.
  assert (Es : mtimer (dev s') = 0x200000005).
  { change s' with (r, s').2. rewrite <- E. reflexivity. }
  rewrite Es in H. apply H.
  - reflexivity.
  - simpl. lia.
  - repeat constructor; lia.
  - vm_compute. reflexivity.
Defined.

(** X2.  On a core that is not a 32-bit one the counter is read by a single
    64-bit load, so the read is untorn whatever the counter does. *)
Theorem SysTimer_GetLoadValue_wide_untorn soc s :
  __RISCV_XLEN soc <> 32 ->
  0 <= mtimer (dev s) < B64 ->
  untorn_read soc s
  /\ footprint (SysTimer_GetLoadValue soc) s = [Read 64 (MTIMER_addr soc)].
Proof.
  intros HX Hc. destruct s as [m ds hid lg]. simpl in Hc.
  unfold untorn_read, footprint, events_of, SysTimer_GetLoadValue.
  destruct (Z.eqb_spec (__RISCV_XLEN soc) 32) as [| _]; [easy |].
  rewrite __LD_run. cbv beta iota zeta. finish_log.
  split; [| reflexivity].
  rewrite low_reads_low. simpl. f_equal.
  unfold read64. rewrite read32_hi, read32_lo.
  symmetry. apply halves_join.
  destruct ds; simpl; [assumption | apply uint64_range].
Qed.

Lemma SysTimer_GetLoadValue_wide_untorn_at_sample :
  untorn_read sample_rv64 (boot 0xFFFFFFFE [0x100000005] 0).
Proof.
  apply (SysTimer_GetLoadValue_wide_untorn sample_rv64
           (boot 0xFFFFFFFE [0x100000005] 0)).
  - discriminate.
  - simpl. lia.
Defined.

(** ** Writing the counter while it runs *)

Lemma carry_free_arith c d1 d2 value :
  0 <= c < B64 -> 0 <= value < B64 ->
  0 <= d1 -> 0 <= d2 -> d1 + d2 < B32 ->
  let c1 := uint64 (hi32 c * B32 + 0 + d1) in
  let c2 := uint64 (hi32 value * B32 + lo32 c1 + d2) in
  hi32 c2 * B32 + lo32 value = value.
Proof.
  intros Hc Hv H1 H2 H12. cbv zeta.
  rewrite !hi32_div. unfold lo32, uint32, uint64.
  Z.div_mod_to_equations. lia.
Qed.

(** X3.  On a 32-bit core, with the counter running: if fewer than 2^32
    ticks pass between the first and the last of the three stores of
    [SysTimer_SetLoadValue value], no carry reaches the high word that was
    written, and after the last store the counter holds exactly [value]. *)
Theorem SysTimer_SetLoadValue_lands soc s value :
  __RISCV_XLEN soc = 32 ->
  0 <= value < B64 ->
  0 <= mtimer (dev s) < B64 ->
  Forall (fun d => 0 <= d) (pending s) ->
  nth 1 (pending s) 0 + nth 2 (pending s) 0 < B32 ->
  mtimer (dev (SysTimer_SetLoadValue soc value s).2) = value.
Proof.
  intros HX Hv Hc Hd Hsum.
  destruct s as [[c rg] ds hid lg]. simpl in Hc, Hd, Hsum.
  unfold SysTimer_SetLoadValue. rewrite HX, Z.eqb_refl.
  cbv beta iota zeta delta [bind].
  do 3 (rewrite __SW_run; cbv beta iota zeta).
  cbn [snd dev].
  rewrite !uint32_idem. change (uint32 0) with 0.
  change (uint32 (Z.shiftr value 32)) with (hi32 value).
  change (uint32 value) with (lo32 value).
  rewrite !write32_lo, !write32_hi.
  set (m0 := advanced (Mmio c rg) ds).
  assert (R0 : 0 <= mtimer m0 < B64).
  { subst m0. destruct ds; simpl; [assumption | apply uint64_range]. }
  pose proof (Forall_tail_nonneg _ Hd) as Hd1.
  pose proof (nth_0_nonneg _ Hd1) as N1.
  pose proof (nth_0_nonneg _ (Forall_tail_nonneg _ Hd1)) as N2.
  assert (E12 : nth 1 ds 0 = nth 0 (tail ds) 0
                /\ nth 2 ds 0 = nth 0 (tail (tail ds)) 0).
  { destruct ds as [| d0 [| d1 [| d2 rest]]]; simpl; auto. }
  destruct E12 as [E1 E2]. rewrite E1, E2 in Hsum.
  pose proof (carry_free_arith (mtimer m0) _ _ value R0 Hv N1 N2 Hsum) as A.
  cbv zeta in A.
  set (m1 := Mmio (hi32 (mtimer m0) * B32 + 0) (regs m0)) in *.
  assert (C1 : mtimer (advanced m1 (tail ds))
               = uint64 (hi32 (mtimer m0) * B32 + 0 + nth 0 (tail ds) 0)).
  { apply advanced_counter. simpl. symmetry. apply uint64_small.
    pose proof (hi32_range (mtimer m0)). lia. }
  rewrite C1.
  set (c1 := uint64 (hi32 (mtimer m0) * B32 + 0 + nth 0 (tail ds) 0)) in *.
  set (m2 := Mmio (hi32 value * B32 + lo32 c1) (regs (advanced m1 (tail ds)))).
  assert (C2 : mtimer (advanced m2 (tail (tail ds)))
               = uint64 (hi32 value * B32 + lo32 c1
                         + nth 0 (tail (tail ds)) 0)).
  { apply advanced_counter. simpl. symmetry. apply uint64_small.
    pose proof (hi32_range value). pose proof (lo32_range c1). lia. }
  cbn [mtimer]. rewrite C2. exact A.
Qed.

Lemma SysTimer_SetLoadValue_lands_at_sample :
  mtimer (dev (SysTimer_SetLoadValue sample_rv32 0x7FFFFFFFF
                 (boot 0x1FFFFFFFF [3; 0x7FFFFFFF; 0x7FFFFFFF] 0)).2)
  = 0x7FFFFFFFF.
Proof.
  apply (SysTimer_SetLoadValue_lands sample_rv32
           (boot 0x1FFFFFFFF [3; 0x7FFFFFFF; 0x7FFFFFFF] 0) 0x7FFFFFFFF).
  - reflexivity.
  - lia.
  - simpl. lia.
  - repeat constructor; lia.
  - simpl. lia.
Defined.

(** ** Compare registers *)

(** X4.  For every hart, on 32-bit and on wider cores, and whatever the
    counter does meanwhile: what [SysTimer_SetHartCompareValue] has written,
    [SysTimer_GetHartCompareValue] reads back. *)
Theorem compare_value_round_trip soc s value hartid :
  apart_from_counter soc (compare_addr soc hartid) ->
  0 <= value < B64 ->
  (SysTimer_GetHartCompareValue soc hartid
     (SysTimer_SetHartCompareValue soc value hartid s).2).1 = value.
Proof.
  intros Ha Hv. destruct s as [m ds hid lg].
  pose proof (halves_join value Hv) as Hj.
  unfold SysTimer_SetHartCompareValue, SysTimer_GetHartCompareValue.
  assert (Ea : compare_addr soc hartid
               = if hartid =? 0 then MTIMERCMP_addr soc
                 else per_hart_addr soc PH_MTIMECMP hartid) by reflexivity.
  set (a := compare_addr soc hartid) in *.
  destruct (hartid =? 0), (__RISCV_XLEN soc =? 32);
    run_steps; cbn [fst snd]; run_steps; cbn [fst snd];
    rewrite <- ?Ea; clear Ea;
    rewrite ?uint32_idem, ?uint64_small by assumption;
    change (uint32 (Z.shiftr value 32)) with (hi32 value);
    change (uint32 value) with (lo32 value);
    unfold read64, write64; simpl_reads;
    rewrite ?join64_add by apply lo32_range; exact Hj.
Qed.

Lemma compare_value_round_trip_at_sample :
  (SysTimer_GetHartCompareValue sample_rv32 5
     (SysTimer_SetHartCompareValue sample_rv32 0x123456789ABCDEF0 5
        (boot 0 [7; 7; 7; 7; 7] 0)).2).1 = 0x123456789ABCDEF0.
Proof.
  apply (compare_value_round_trip sample_rv32 (boot 0 [7; 7; 7; 7; 7] 0)
           0x123456789ABCDEF0 5).
  - right. vm_compute. discriminate.
  - lia.
Defined.

(** X5.  [SysTimer_SetHartCompareValue] writes the compare register of the
    hart it is given and nothing else: the compare register of any other
    hart that lies apart from it keeps its value, and none of its stores goes
    to a word of MTIMER. *)
Theorem compare_value_frame soc s value hartid other :
  apart_from_counter soc (compare_addr soc hartid) ->
  apart_from_counter soc (compare_addr soc other) ->
  disjoint_regs (compare_addr soc hartid) (compare_addr soc other) ->
  let s' := (SysTimer_SetHartCompareValue soc value hartid s).2 in
  compare_reg soc other (dev s') = compare_reg soc other (dev s)
  /\ Forall (fun a => ~ touches_counter soc a)
            (footprint (SysTimer_SetHartCompareValue soc value hartid) s).
Proof.
  intros Ha Hb Hd s'. subst s'. destruct s as [m ds hid lg].
  unfold compare_reg, footprint, events_of, SysTimer_SetHartCompareValue.
  assert (Ea : compare_addr soc hartid
               = if hartid =? 0 then MTIMERCMP_addr soc
                 else per_hart_addr soc PH_MTIMECMP hartid) by reflexivity.
  set (a := compare_addr soc hartid) in *.
  set (b := compare_addr soc other) in *.
  unfold disjoint_regs in Hd.
  assert (Hc : apart_from_counter soc a) by assumption.
  unfold apart_from_counter in Hc.
  destruct (hartid =? 0), (__RISCV_XLEN soc =? 32);
    run_steps; cbn [fst snd]; run_steps; finish_log; cbn [dev];
    rewrite <- ?Ea; clear Ea;
    (split;
     [ unfold read64, write64; simpl_reads; reflexivity
     | cbn [fmap list_fmap app fst shape]; Forall_list;
       cbn [touches_counter]; lia ]).
Qed.

Lemma compare_value_frame_at_sample :
  let s := (SysTimer_SetHartCompareValue sample_rv32 0x500000005 2
              (boot 0 [] 0)).2 in
  compare_reg sample_rv32 2
    (dev (SysTimer_SetHartCompareValue sample_rv32 0x900000009 3 s).2)
  = compare_reg sample_rv32 2 (dev s).
Proof.
  cbv zeta.
  apply (compare_value_frame sample_rv32
           (SysTimer_SetHartCompareValue sample_rv32 0x500000005 2
              (boot 0 [] 0)).2 0x900000009 3 2).
  - right. vm_compute. discriminate.
  - right. vm_compute. discriminate.
  - right. vm_compute. discriminate.
Defined.

(** ** Starting and stopping the counter *)

Lemma uint32_lor a b :
  0 <= a < B32 -> 0 <= b < B32 -> uint32 (Z.lor a b) = Z.lor a b.
Proof.
  intros Ha Hb. rewrite uint32_land_ones, Z.land_lor_distr_l.
  now rewrite <- !uint32_land_ones, !uint32_small.
Qed.

(** Equations between bit patterns, bit by bit. *)
Ltac bitwise :=
  apply Z.bits_inj'; intros ?i ?Hi;
  rewrite ?Z.land_spec, ?Z.lor_spec, ?Z.lnot_spec, ?Z.bits_0 by assumption;
  repeat match goal with
         | |- context [Z.testbit ?x ?i] =>
             is_var x; destruct (Z.testbit x i)
         end;
  reflexivity.

Lemma land_clear_mask v msk : Z.land (Z.land v (Z.lnot msk)) msk = 0.
Proof. bitwise. Qed.

Lemma land_clear_rest v msk :
  Z.land (Z.land v (Z.lnot msk)) (Z.lnot msk) = Z.land v (Z.lnot msk).
Proof. bitwise. Qed.

Lemma land_set_mask v msk : Z.land (Z.lor v msk) msk = msk.
Proof. bitwise. Qed.

Lemma land_set_rest v msk :
  Z.land (Z.lor v msk) (Z.lnot msk) = Z.land v (Z.lnot msk).
Proof. bitwise. Qed.

(** X6.  [SysTimer_Start] clears the TIMESTOP bits of the control register
    and [SysTimer_Stop] sets them; both leave every other bit of the register
    as it was. *)
Theorem SysTimer_Start_Stop_bits soc s :
  not_counter_word soc (MTIMECTL_addr soc) ->
  word_ok soc (dev s) (MTIMECTL_addr soc) ->
  0 <= SysTimer_MTIMECTL_TIMESTOP_Msk soc < B32 ->
  let stop := SysTimer_MTIMECTL_TIMESTOP_Msk soc in
  let old := read32 soc (dev s) (MTIMECTL_addr soc) in
  let started := read32 soc (dev (SysTimer_Start soc s).2) (MTIMECTL_addr soc) in
  let stopped := read32 soc (dev (SysTimer_Stop soc s).2) (MTIMECTL_addr soc) in
  (Z.land started stop = 0
   /\ Z.land started (Z.lnot stop) = Z.land old (Z.lnot stop))
  /\ (Z.land stopped stop = stop
      /\ Z.land stopped (Z.lnot stop) = Z.land old (Z.lnot stop)).
Proof.
  intros Ha Hw Hm stop old started stopped.
  destruct s as [m ds hid lg]. simpl in Hw, old.
  assert (Es : started = Z.land old (Z.lnot stop)).
  { subst started. unfold SysTimer_Start. run_steps. cbn [snd dev].
    rewrite read32_write32_same, read32_advanced by assumption.
    now apply uint32_land. }
  assert (Et : stopped = Z.lor old stop).
  { subst stopped. unfold SysTimer_Stop. run_steps. cbn [snd dev].
    rewrite read32_write32_same, read32_advanced by assumption.
    now apply uint32_lor. }
  rewrite Es, Et.
  split; split;
    auto using land_clear_mask, land_clear_rest, land_set_mask, land_set_rest.
Qed.

Lemma SysTimer_Start_Stop_bits_at_sample :
  let s := (SysTimer_SetControlValue sample_rv32 6 (boot 0 [] 0)).2 in
  Z.land (read32 sample_rv32 (dev (SysTimer_Start sample_rv32 s).2) 0x1FF8) 1
    = 0
  /\ Z.land (read32 sample_rv32 (dev (SysTimer_Stop sample_rv32 s).2) 0x1FF8) 1
     = 1.
Proof.
  cbv zeta.
  destruct (SysTimer_Start_Stop_bits sample_rv32
              (SysTimer_SetControlValue sample_rv32 6 (boot 0 [] 0)).2)
    as [[H1 _] [H2 _]].
  - split; discriminate.
  - vm_compute. split; discriminate || reflexivity.
  - simpl. lia.
  - split; [exact H1 | exact H2].
Defined.

(** ** Software interrupts *)

Lemma land_set_through v bit msk :
  Z.land bit msk = bit -> Z.land (Z.land (Z.lor v bit) msk) bit = bit.
Proof.
  intros H. rewrite <- Z.land_assoc, (Z.land_comm msk), H.
  apply land_set_mask.
Qed.

Lemma land_clear_through v bit msk :
  Z.land bit msk = bit -> Z.land (Z.land (Z.land v (Z.lnot bit)) msk) bit = 0.
Proof.
  intros H. rewrite <- Z.land_assoc, (Z.land_comm msk), H.
  apply land_clear_mask.
Qed.

(** X7.  For every hart: after [SysTimer_SetHartSWIRQ] the value
    [SysTimer_GetHartMsipValue] returns has the MSIP bit set, and after
    [SysTimer_ClearHartSWIRQ] it has the bit clear. *)
Theorem software_interrupt_set_clear soc s hartid :
  not_counter_word soc (msip_addr soc hartid) ->
  word_ok soc (dev s) (msip_addr soc hartid) ->
  0 <= SysTimer_MSIP_MSIP_Msk soc < B32 ->
  Z.land (SysTimer_MSIP_MSIP_Msk soc) (SysTimer_MSIP_Msk soc)
    = SysTimer_MSIP_MSIP_Msk soc ->
  let bit := SysTimer_MSIP_MSIP_Msk soc in
  Z.land (SysTimer_GetHartMsipValue soc hartid
            (SysTimer_SetHartSWIRQ soc hartid s).2).1 bit = bit
  /\ Z.land (SysTimer_GetHartMsipValue soc hartid
               (SysTimer_ClearHartSWIRQ soc hartid s).2).1 bit = 0.
Proof.
  intros Ha Hw Hb Hin bit. subst bit. destruct s as [m ds hid lg].
  simpl in Hw.
  unfold SysTimer_SetHartSWIRQ, SysTimer_ClearHartSWIRQ,
    SysTimer_GetHartMsipValue.
  assert (Ea : msip_addr soc hartid
               = if hartid =? 0 then MSIP_addr soc
                 else per_hart_addr soc PH_MSIP hartid) by reflexivity.
  set (a := msip_addr soc hartid) in *.
  destruct (hartid =? 0);
    run_steps; cbn [fst snd]; run_steps; cbn [fst snd];
    rewrite <- ?Ea; clear Ea; simpl_reads.
  - set (old := read32 soc m a) in *.
    pose proof (uint32_lor old _ Hw Hb) as E1.
    pose proof (uint32_land old (Z.lnot (SysTimer_MSIP_MSIP_Msk soc)) Hw)
      as E2.
    pose proof (uint32_range (Z.lor old (SysTimer_MSIP_MSIP_Msk soc))) as R1.
    pose proof (uint32_range
                  (Z.land old (Z.lnot (SysTimer_MSIP_MSIP_Msk soc)))) as R2.
    rewrite E1 in *. rewrite E2 in *.
    rewrite !uint32_land by assumption.
    split; [now apply land_set_through | now apply land_clear_through].
  - rewrite uint32_small by assumption. change (uint32 0) with 0.
    split; [apply Z.land_diag | apply Z.land_0_l].
Qed.

Lemma software_interrupt_set_clear_at_sample :
  Z.land (SysTimer_GetHartMsipValue sample_rv32 0
            (SysTimer_SetHartSWIRQ sample_rv32 0 (boot 0 [] 0)).2).1 1 = 1
  /\ Z.land (SysTimer_GetHartMsipValue sample_rv32 4
               (SysTimer_ClearHartSWIRQ sample_rv32 4
                  (SysTimer_SendIPI sample_rv32 4 (boot 0 [] 0)).2).2).1 1 = 0.
Proof.
  split.
  - apply (software_interrupt_set_clear sample_rv32 (boot 0 [] 0) 0).
    + split; discriminate.
    + vm_compute. split; discriminate || reflexivity.
    + simpl. lia.
    + reflexivity.
  - apply (software_interrupt_set_clear sample_rv32
             (SysTimer_SendIPI sample_rv32 4 (boot 0 [] 0)).2 4).
    + split; discriminate.
    + vm_compute. split; discriminate || reflexivity.
    + simpl. lia.
    + reflexivity.
Defined.

(** X8.  What [SysTimer_SetHartMsipValue] has written,
    [SysTimer_GetHartMsipValue] reads back: masked with [SysTimer_MSIP_Msk]
    for hart 0, and as it was given for every other hart, for which neither
    function applies the mask. *)
Theorem msip_value_round_trip soc s msip hartid :
  not_counter_word soc (msip_addr soc hartid) ->
  0 <= msip < B32 ->
  (SysTimer_GetHartMsipValue soc hartid
     (SysTimer_SetHartMsipValue soc msip hartid s).2).1
  = if hartid =? 0 then Z.land msip (SysTimer_MSIP_Msk soc) else msip.
Proof.
  intros Ha Hv. destruct s as [m ds hid lg].
  unfold SysTimer_SetHartMsipValue, SysTimer_GetHartMsipValue.
  assert (Ea : msip_addr soc hartid
               = if hartid =? 0 then MSIP_addr soc
                 else per_hart_addr soc PH_MSIP hartid) by reflexivity.
  set (a := msip_addr soc hartid) in *.
  destruct (hartid =? 0);
    run_steps; cbn [fst snd]; run_steps; cbn [fst snd];
    rewrite <- ?Ea; clear Ea; simpl_reads.
  - rewrite (uint32_land msip _ Hv).
    rewrite <- Z.land_assoc, Z.land_diag. now apply uint32_land.
  - now apply uint32_small.
Qed.

Lemma msip_value_round_trip_at_sample :
  (SysTimer_GetHartMsipValue sample_rv32 6
     (SysTimer_SetHartMsipValue sample_rv32 0xA5 6 (boot 0 [1; 2] 0)).2).1
  = 0xA5.
Proof.
  apply (msip_value_round_trip sample_rv32 (boot 0 [1; 2] 0) 0xA5 6).
  - split; discriminate.
  - lia.
Defined.

(** X9.  For every hart other than hart 0: after [SysTimer_SendIPI] the
    target's [SysTimer_GetHartMsipValue] is 1 and after [SysTimer_ClearIPI]
    it is 0, while the value read for any other such hart whose register is
    another word is what it was. *)
Theorem ipi_seen_by_target_only soc s hartid other :
  hartid <> 0 ->
  not_counter_word soc (msip_addr soc hartid) ->
  (SysTimer_GetHartMsipValue soc hartid (SysTimer_SendIPI soc hartid s).2).1
    = 1
  /\ (SysTimer_GetHartMsipValue soc hartid
        (SysTimer_ClearIPI soc hartid s).2).1 = 0
  /\ (other <> 0 ->
      not_counter_word soc (msip_addr soc other) ->
      msip_addr soc other <> msip_addr soc hartid ->
      (SysTimer_GetHartMsipValue soc other
         (SysTimer_SendIPI soc hartid s).2).1
      = (SysTimer_GetHartMsipValue soc other s).1
      /\ (SysTimer_GetHartMsipValue soc other
            (SysTimer_ClearIPI soc hartid s).2).1
         = (SysTimer_GetHartMsipValue soc other s).1).
Proof.
  intros Hh Ha. destruct s as [m ds hid lg].
  unfold SysTimer_SendIPI, SysTimer_ClearIPI, SysTimer_GetHartMsipValue.
  unfold msip_addr in *.
  destruct (Z.eqb_spec hartid 0) as [| _]; [easy |].
  set (a := per_hart_addr soc PH_MSIP hartid) in *.
  split; [| split].
  - run_steps. cbn [fst snd]. run_steps. cbn [fst snd]. fold a.
    now simpl_reads.
  - run_steps. cbn [fst snd]. run_steps. cbn [fst snd]. fold a.
    now simpl_reads.
  - intros Ho Hb Hne.
    destruct (Z.eqb_spec other 0) as [| _]; [easy |].
    set (b := per_hart_addr soc PH_MSIP other) in *.
    split; run_steps; cbn [fst snd]; run_steps; cbn [fst snd];
      fold a; fold b; simpl_reads; reflexivity.
Qed.

Lemma ipi_seen_by_target_only_at_sample :
  (SysTimer_GetHartMsipValue sample_rv32 3
     (SysTimer_SendIPI sample_rv32 3 (boot 0 [] 0)).2).1 = 1
  /\ (SysTimer_GetHartMsipValue sample_rv32 2
        (SysTimer_SendIPI sample_rv32 3 (boot 0 [] 0)).2).1 = 0.
Proof.
  destruct (ipi_seen_by_target_only sample_rv32 (boot 0 [] 0) 3 2)
    as (H1 & _ & H3).
  - discriminate.
  - split; discriminate.
  - split; [exact H1 |].
    destruct H3 as [H3 _]; [discriminate | split; discriminate | discriminate |].
    exact H3.
Defined.

(** ** System tick on the hart that runs the code *)

Section OwnHart.

Variable soc : SoC.

Lemma mhartid_GetLoadValue s :
  mhartid (SysTimer_GetLoadValue soc s).2 = mhartid s.
Proof.
  destruct s as [m ds hid lg]. unfold SysTimer_GetLoadValue.
  destruct (__RISCV_XLEN soc =? 32); run_steps; [| reflexivity].
  match goal with |- context [negb ?b] => destruct b end;
    cbn [negb]; run_steps; reflexivity.
Qed.

Lemma mhartid_SetLoadValue value s :
  mhartid (SysTimer_SetLoadValue soc value s).2 = mhartid s.
Proof.
  destruct s as [m ds hid lg]. unfold SysTimer_SetLoadValue.
  destruct (__RISCV_XLEN soc =? 32); run_steps; reflexivity.
Qed.

Lemma SysTimer_SetCompareValue_own value s :
  SysTimer_SetCompareValue soc value s
  = SysTimer_SetHartCompareValue soc value (mhartid s) s.
Proof. reflexivity. Qed.

End OwnHart.

(** X10.  In every state, [SysTick_Reload] does what [SysTick_HartReload]
    does for the hart that runs it, and [SysTick_Config] what
    [SysTick_HartConfig] does for that hart: same result, same accesses,
    same final state. *)
Theorem SysTick_own_hart soc s ticks :
  SysTick_Reload soc ticks s = SysTick_HartReload soc ticks (mhartid s) s
  /\ SysTick_Config soc ticks s = SysTick_HartConfig soc ticks (mhartid s) s.
Proof.
  unfold SysTick_Reload, SysTick_HartReload, SysTick_Config, SysTick_HartConfig.
  cbv beta iota zeta delta [bind].
  pose proof (mhartid_GetLoadValue soc s) as H1.
  destruct (SysTimer_GetLoadValue soc s) as [cur s1]. cbn [snd] in H1.
  split; [| now rewrite SysTimer_SetCompareValue_own, H1].
  destruct (uint64 (ticks + cur) >? cur).
  { now rewrite SysTimer_SetCompareValue_own, H1. }
  pose proof (mhartid_SetLoadValue soc 0 s1) as H2.
  destruct (SysTimer_SetLoadValue soc 0 s1) as [[] s2]. cbn [snd] in H2.
  now rewrite SysTimer_SetCompareValue_own, H2, H1.
Qed.

(** ** What the configuration leaves alone *)

Lemma suffix_cons {A} (x : A) (l suf : list A) :
  (exists before, l = before ++ suf) ->
  exists before, x :: l = before ++ suf.
Proof. intros [b ->]. now exists (x :: b). Qed.

(** X11.  [SysTick_HartConfig] never stores to MTIMER, whatever [ticks] and
    the counter are; it ends with the three calls that make the timer
    interrupt a non-vectored one of level 0 and enable it, and returns 0. *)
Theorem SysTick_HartConfig_leaves_counter soc s ticks hartid :
  apart_from_counter soc (compare_addr soc hartid) ->
  let run := SysTick_HartConfig soc ticks hartid in
  Forall (fun a => ~ touches_counter soc a) (footprint run s)
  /\ (exists before,
        events_of run s
        = before
          ++ [EvCall X_ECLIC_SetShvIRQ
                [SysTimer_IRQn soc; ECLIC_NON_VECTOR_INTERRUPT soc];
              EvCall X_ECLIC_SetLevelIRQ [SysTimer_IRQn soc; 0];
              EvCall X_ECLIC_EnableIRQ [SysTimer_IRQn soc]])
  /\ (run s).1 = 0.
Proof.
  intros Ha run. subst run. destruct s as [m ds hid lg].
  unfold footprint, events_of, SysTick_HartConfig, SysTimer_GetLoadValue,
    SysTimer_SetHartCompareValue, ECLIC_SetShvIRQ, ECLIC_SetLevelIRQ,
    ECLIC_EnableIRQ, emit.
  assert (Ea : compare_addr soc hartid
               = if hartid =? 0 then MTIMERCMP_addr soc
                 else per_hart_addr soc PH_MTIMECMP hartid) by reflexivity.
  set (a := compare_addr soc hartid) in *.
  unfold apart_from_counter in Ha.
  destruct (hartid =? 0), (__RISCV_XLEN soc =? 32); run_steps;
    try match goal with |- context [negb ?b] => destruct b end;
    cbn [negb]; run_steps; cbn [fst snd dev pending mhartid log]; run_steps;
    cbn [fst snd dev pending mhartid log];
    rewrite <- ?Ea; clear Ea; finish_log;
    (split;
     [ cbn [fmap list_fmap app fst shape]; Forall_list;
       cbn [touches_counter]; lia
     | split; [| reflexivity] ]).
  all: cbn [fmap list_fmap app fst].
  all: repeat first [ exists []; reflexivity | apply suffix_cons ].
Qed.

Lemma SysTick_HartConfig_leaves_counter_at_sample :
  Forall (fun a => ~ touches_counter sample_rv32 a)
    (footprint (SysTick_HartConfig sample_rv32 0xFFFFFFFFFFFFFFFF 3)
       (boot 0xFFFFFFFF [0; 1] 0)).
Proof.
  apply (SysTick_HartConfig_leaves_counter sample_rv32
           (boot 0xFFFFFFFF [0; 1] 0) 0xFFFFFFFFFFFFFFFF 3).
  right. vm_compute. discriminate.
Defined.

(** * Further properties of the exception table *)

(** X12.  [Exception_Register_EXC] changes the entry of its code and no
    other: for every other code [Exception_Get_EXC] returns what it returned
    before, and the table keeps its 12 entries. *)
Theorem Exception_Register_EXC_frame tbl code h other :
  0 <= code -> 0 <= other -> other <> code ->
  Exception_Get_EXC other (Exception_Register_EXC code h tbl)
    = Exception_Get_EXC other tbl
  /\ length (Exception_Register_EXC code h tbl) = length tbl.
Proof.
  intros Hc Ho Hne. unfold Exception_Get_EXC, Exception_Register_EXC.
  destruct (code <? MAX_SYSTEM_EXCEPTION_NUM); [| easy].
  split; [| apply length_insert].
  destruct (other <? MAX_SYSTEM_EXCEPTION_NUM); [| reflexivity].
  f_equal. apply list_lookup_total_insert_ne. lia.
Qed.

Lemma Exception_Register_EXC_frame_at_sample :
  Exception_Get_EXC 4
    (Exception_Register_EXC 5 0x80002000
       (Exception_Init sample_rv32 (replicate 12 0)))
  = Some 0x80001000.
Proof.
  destruct (Exception_Register_EXC_frame
              (Exception_Init sample_rv32 (replicate 12 0)) 5 0x80002000 4)
    as [H _]; [lia | lia | lia |].
  rewrite H. reflexivity.
Defined.

(** X13.  Registering twice for one code keeps the last handler only, and
    registrations for two different codes can be made in either order. *)
Theorem Exception_Register_EXC_twice tbl c1 h1 c2 h2 :
  0 <= c1 -> 0 <= c2 ->
  Exception_Register_EXC c1 h2 (Exception_Register_EXC c1 h1 tbl)
    = Exception_Register_EXC c1 h2 tbl
  /\ (c1 <> c2 ->
      Exception_Register_EXC c1 h1 (Exception_Register_EXC c2 h2 tbl)
      = Exception_Register_EXC c2 h2 (Exception_Register_EXC c1 h1 tbl)).
Proof.
  intros H1 H2. unfold Exception_Register_EXC.
  destruct (c1 <? MAX_SYSTEM_EXCEPTION_NUM), (c2 <? MAX_SYSTEM_EXCEPTION_NUM);
    split; intros; try reflexivity;
    try apply list_insert_insert_eq.
  apply list_insert_insert_ne. lia.
Qed.

Lemma Exception_Register_EXC_twice_at_sample :
  Exception_Register_EXC 3 0x80003000
    (Exception_Register_EXC 3 0x80002000 (replicate 12 0))
  = Exception_Register_EXC 3 0x80003000 (replicate 12 0).
Proof.
  apply (Exception_Register_EXC_twice (replicate 12 0)
           3 0x80002000 3 0x80003000); lia.
Defined.

(** X14.  [Exception_Init] forgets every registration: run on a table with
    a handler registered, or run a second time, it gives the table it gives
    on any other table, with 12 entries that all hold the default handler. *)
Theorem Exception_Init_forgets soc tbl code h :
  table_ok tbl ->
  Exception_Init soc (Exception_Register_EXC code h tbl)
    = Exception_Init soc tbl
  /\ Exception_Init soc (Exception_Init soc tbl) = Exception_Init soc tbl
  /\ table_ok (Exception_Init soc tbl)
  /\ Forall (fun e => e = system_default_exception_handler soc)
            (Exception_Init soc tbl).
Proof.
  intros Hok.
  assert (Hreg : table_ok (Exception_Register_EXC code h tbl)).
  { unfold table_ok, Exception_Register_EXC in *.
    destruct (code <? MAX_SYSTEM_EXCEPTION_NUM);
      [now rewrite length_insert | assumption]. }
  assert (Hinit : table_ok (Exception_Init soc tbl)).
  { rewrite Exception_Init_all by assumption.
    unfold table_ok. apply length_replicate. }
  rewrite (Exception_Init_all soc _ Hreg), (Exception_Init_all soc _ Hinit).
  rewrite (Exception_Init_all soc _ Hok).
  repeat split. apply Forall_replicate. reflexivity.
Qed.

Lemma Exception_Init_forgets_at_sample :
  Exception_Init sample_rv32
    (Exception_Register_EXC 7 0x80002000 (replicate 12 0))
  = Exception_Init sample_rv32 (replicate 12 0).
Proof.
  apply (Exception_Init_forgets sample_rv32 (replicate 12 0) 7 0x80002000).
  reflexivity.
Defined.

(** * Further properties of the dispatch *)

(** X15.  After [Exception_Init], every trap, whatever its [mcause], is
    handed to the default handler with [(mcause, sp)], and to it alone. *)
Theorem dispatch_after_init soc tbl mcause sp :
  table_ok tbl ->
  system_default_exception_handler soc <> 0 ->
  core_exception_handler soc mcause sp (Exception_Init soc tbl)
  = ([Invoke (system_default_exception_handler soc) mcause sp], 0).
Proof.
  intros Hok Hd. rewrite Exception_Init_all by assumption.
  unfold core_exception_handler. rewrite low_12_bits.
  pose proof (Z.mod_pos_bound mcause 4096 ltac:(lia)) as Hm.
  destruct (Z.ltb_spec (mcause mod 4096) MAX_SYSTEM_EXCEPTION_NUM) as [Hlt | _].
  - rewrite lookup_total_replicate_2 by lia.
    destruct (Z.eqb_spec (system_default_exception_handler soc) 0); easy.
  - destruct (Z.eqb_spec (system_default_exception_handler soc) 0); easy.
Qed.

Lemma dispatch_after_init_at_sample :
  core_exception_handler sample_rv32 0x30000007 0x20000
    (Exception_Init sample_rv32 (replicate 12 0))
  = ([Invoke 0x80001000 0x30000007 0x20000], 0).
Proof.
  apply (dispatch_after_init sample_rv32 (replicate 12 0) 0x30000007 0x20000).
  - reflexivity.
  - discriminate.
Defined.

(** X16.  After [Exception_Register_EXC code h] with a code below 12 and a
    handler that is not NULL, every trap whose [mcause] has [code] in its low
    12 bits is handed to [h] with [(mcause, sp)], whatever the other bits of
    [mcause] are; every other trap is dispatched as before the
    registration. *)
Theorem dispatch_after_register soc tbl code h mcause sp :
  table_ok tbl ->
  0 <= code < MAX_SYSTEM_EXCEPTION_NUM ->
  h <> 0 ->
  (mcause mod 4096 = code ->
   core_exception_handler soc mcause sp (Exception_Register_EXC code h tbl)
   = ([Invoke h mcause sp], 0))
  /\ (mcause mod 4096 <> code ->
      core_exception_handler soc mcause sp (Exception_Register_EXC code h tbl)
      = core_exception_handler soc mcause sp tbl).
Proof.
  intros Hok Hc Hh. unfold table_ok in Hok.
  unfold core_exception_handler, Exception_Register_EXC.
  rewrite low_12_bits.
  pose proof (Z.mod_pos_bound mcause 4096 ltac:(lia)) as Hm.
  unfold MAX_SYSTEM_EXCEPTION_NUM in *.
  destruct (Z.ltb_spec code 12) as [_ | ?]; [| lia].
  split.
  - intros ->.
    destruct (Z.ltb_spec code 12) as [_ | ?]; [| lia].
    rewrite list_lookup_total_insert_eq by lia.
    destruct (Z.eqb_spec h 0); easy.
  - intros Hne.
    destruct (Z.ltb_spec (mcause mod 4096) 12) as [Hlt | _]; [| reflexivity].
    rewrite list_lookup_total_insert_ne by lia. reflexivity.
Qed.

Lemma dispatch_after_register_at_sample :
  core_exception_handler sample_rv32 0x80000002 0x20000
    (Exception_Register_EXC 2 0x80002000
       (Exception_Init sample_rv32 (replicate 12 0)))
  = ([Invoke 0x80002000 0x80000002 0x20000], 0).
Proof.
  apply (dispatch_after_register sample_rv32
           (Exception_Init sample_rv32 (replicate 12 0))
           2 0x80002000 0x80000002 0x20000).
  - reflexivity.
  - unfold MAX_SYSTEM_EXCEPTION_NUM. lia.
  - discriminate.
  - reflexivity.
Defined.

(** * Further properties of the reload *)

Lemma reload_test_fits ticks c :
  0 <= c < B64 -> 0 <= ticks < B64 ->
  (uint64 (ticks + c) >? c) = true -> uint64 (ticks + c) = ticks + c.
Proof.
  intros Hc Ht Htest.
  destruct (Z.lt_ge_cases (ticks + c) B64) as [Hfit | Hwrap].
  - apply uint64_small. lia.
  - rewrite reload_test_false in Htest by (assumption || lia). discriminate.
Qed.

(** X17.  With the counter standing still, after [SysTick_Reload] and after
    [SysTick_HartReload] the compare register is exactly [ticks] above the
    counter, for every [ticks] and every counter value, whether the sum
    wraps or not. *)
Theorem SysTick_Reload_distance soc s ticks hartid :
  pending s = [] ->
  0 <= mtimer (dev s) < B64 ->
  0 <= ticks < B64 ->
  apart_from_counter soc (compare_addr soc (mhartid s)) ->
  apart_from_counter soc (compare_addr soc hartid) ->
  let s1 := (SysTick_Reload soc ticks s).2 in
  let s2 := (SysTick_HartReload soc ticks hartid s).2 in
  compare_reg soc (mhartid s) (dev s1) - mtimer (dev s1) = ticks
  /\ compare_reg soc hartid (dev s2) - mtimer (dev s2) = ticks.
Proof.
  destruct s as [m ds hid lg]. simpl.
  intros -> Hc Ht Hown Hh.
  destruct (SysTick_Reload_static soc ticks m hid lg Hown Hc Ht)
    as (s1 & -> & R1).
  destruct (SysTick_HartReload_static soc ticks hartid m hid lg Hh Hc Ht)
    as (s2 & -> & R2).
  cbn [snd].
  destruct (uint64 (ticks + mtimer m) >? mtimer m) eqn:Htest.
  - rewrite (reload_test_fits _ _ Hc Ht Htest) in R1, R2.
    destruct R1 as [-> ->], R2 as [-> ->]. lia.
  - destruct R1 as [-> ->], R2 as [-> ->]. lia.
Qed.

Lemma SysTick_Reload_distance_at_sample :
  let s1 := (SysTick_Reload sample_rv32 0xFFFFFFFFFFFFFFF0
               (boot 0x1234 [] 0)).2 in
  compare_reg sample_rv32 0 (dev s1) - mtimer (dev s1) = 0xFFFFFFFFFFFFFFF0.
Proof.
  cbv zeta.
  apply (SysTick_Reload_distance sample_rv32 (boot 0x1234 [] 0)
           0xFFFFFFFFFFFFFFF0 0).
  - reflexivity.
  - simpl. lia.
  - lia.
  - right. vm_compute. discriminate.
  - right. vm_compute. discriminate.
Defined.
